(** * Environ (funelk/environ): the resolution pipeline of [src/extension.ts]

    A shallow embedding of the functions that discover, parse, merge, expand,
    filter and apply environment files, and the properties of the
    specification proved or refuted on them.

    Conventions.
    - A JavaScript object used as a string-keyed dictionary ([EnvMap],
      [process.env], the settings objects) is a [gmap string _]; every loop
      over [Object.entries] touches only the entry of the key it visits, so
      the order of iteration is immaterial and the loop is a [map_fold].
      Properties inherited from [Object.prototype] and the case-insensitive
      [process.env] of Windows are outside the model.
    - The modules [path], [fs], [dotenv] and [dotenv-expand] are libraries:
      their functions are the variables of the sections below.
    - [while (true)] loops carry a fuel argument and return [None] when it
      runs out; every result about them shows which fuel suffices. *)

From Stdlib Require Import Ascii String.
From stdpp Require Import gmap strings list fin_maps fin_sets.

(* The solvers of stdpp clear hypotheses by name. *)
#[local] Set Warnings "-clear-no-such-hyp".

Local Open Scope string_scope.
Local Open Scope list_scope.
Local Open Scope stdpp_scope.

(** ** JavaScript operators on strings *)

Module JS.

(** [a && b] on strings: the empty string is the only falsy string. *)
Definition and_ (a b : string) : string :=
  if decide (a = "") then a else b.

(** [a || b] on strings. *)
Definition or_ (a b : string) : string :=
  if decide (a = "") then b else a.

(** [o ?? d], where [o] is a string or undefined. *)
Definition nullish (o : option string) (d : string) : string := default d o.

(** [Array.prototype.join]. *)
Definition join (sep : string) (xs : list string) : string :=
  String.concat sep xs.

(** [{ ...a, ...b }]: the entries of [b] override those of [a]. *)
Definition spread2 {V} (a b : gmap string V) : gmap string V := b ∪ a.

End JS.

(** ** Types of [extension.ts] *)

Abbreviation EnvMap := (gmap string string).
Abbreviation PathResolves := (gmap string string).

Inductive MergeStrategy := Replace | Prepend | Append.

Abbreviation MergeStrategies := (gmap string MergeStrategy).

Definition DEFAULT_MERGE_STRATEGIES : MergeStrategies := {[ "PATH" := Prepend ]}.
Definition DEFAULT_ENV_FILE_NAME : string := ".env".

(** [process.platform === "win32" ? ";" : ":"] *)
Definition pathSeparator (platform : string) : string :=
  if decide (platform = "win32") then ";" else ":".

(** ** Directory chain and file discovery *)

Section Discovery.

(** [path.resolve], [path.dirname], [path.join] and [fs.existsSync]. *)
Variable path_resolve : list string → string.
Variable path_dirname : string → string.
Variable path_join : list string → string.
Variable fs_existsSync : string → bool.

(** The body of the loop of [getParentDirectories]: push, then step to
    the parent unless the parent is the current path. *)
Fixpoint getParentDirectories_loop
    (fuel : nat) (current : string) (paths : list string)
    : option (list string) :=
  match fuel with
  | O => None
  | S fuel' =>
      let paths := paths ++ [current] in
      let parent := path_dirname current in
      if decide (parent = current) then Some paths
      else getParentDirectories_loop fuel' parent paths
  end.

Definition getParentDirectories (fuel : nat) (startPath : string)
    : option (list string) :=
  getParentDirectories_loop fuel (path_resolve [startPath]) [].

(** The inner [for] of [findEnvFilesUpwards]: the two candidates of one
    directory, each put at the front ([unshift]) when it exists. *)
Definition candidates (current envFileName : string) : list string :=
  [ path_join [current; ".vscode"; envFileName];
    path_join [current; envFileName] ].

Definition unshift_existing (envPaths : list string) (candidate : string)
    : list string :=
  if fs_existsSync candidate then candidate :: envPaths else envPaths.

Fixpoint findEnvFilesUpwards_loop
    (fuel : nat) (current envFileName : string) (envPaths : list string)
    : option (list string) :=
  match fuel with
  | O => None
  | S fuel' =>
      let envPaths :=
        foldl unshift_existing envPaths (candidates current envFileName) in
      let parent := path_dirname current in
      if decide (parent = current) then Some envPaths
      else findEnvFilesUpwards_loop fuel' parent envFileName envPaths
  end.

Definition findEnvFilesUpwards
    (fuel : nat) (startFolderFsPath envFileName : string)
    : option (list string) :=
  findEnvFilesUpwards_loop fuel (path_resolve [startFolderFsPath])
    envFileName [].

(** *** Vocabulary of the statements *)

(** [depth_of p n]: the root is reached from [p] after exactly [n] steps
    of [path.dirname]; the root is the path that is its own parent. *)
Inductive depth_of : string → nat → Prop :=
| depth_root p : path_dirname p = p → depth_of p 0
| depth_step p n :
    path_dirname p ≠ p → depth_of (path_dirname p) n → depth_of p (S n).

(** [p], its parent, ..., its [n]-th ancestor. *)
Fixpoint ancestors (n : nat) (p : string) : list string :=
  p :: match n with
       | O => []
       | S n' => ancestors n' (path_dirname p)
       end.

(** What one directory contributes to the result of discovery, in the
    order in which it ends up in the list. *)
Definition found_in (envFileName dir : string) : list string :=
  filter (λ f, fs_existsSync f = true)
    [ path_join [dir; envFileName];
      path_join [dir; ".vscode"; envFileName] ].

End Discovery.

(** [x] occurs in [l] at a position before an occurrence of [y]. *)
Definition listed_before (x y : string) (l : list string) : Prop :=
  ∃ i j, i < j ∧ l !! i = Some x ∧ l !! j = Some y.

(** No two neighbours of the list are equal. *)
Fixpoint no_adjacent_dup (l : list string) : Prop :=
  match l with
  | x :: (y :: _) as l' => x ≠ y ∧ no_adjacent_dup l'
  | _ => True
  end.

(** ** Effects: completions, the world, and the monad of the pipeline *)

(** How a call into a library ends: a value, or a thrown exception. *)
Inductive completion (A : Type) : Type :=
| Normal (a : A)
| Throw (err : string).
Arguments Normal {A} a.
Arguments Throw {A} err.

(** How a function of the extension ends; [OutOfFuel] is the loop that was
    stopped by its fuel bound. *)
Inductive outcome (A : Type) : Type :=
| Returned (a : A)
| Thrown (err : string)
| OutOfFuel.
Arguments Returned {A} a.
Arguments Thrown {A} err.
Arguments OutOfFuel {A}.

(** *** [vscode.EnvironmentVariableCollection]

    The collection holds at most one mutator per variable. As documented
    in [vscode.d.ts], "an extension can only make a single change to any
    one variable, so this will overwrite any previous calls to replace,
    append or prepend", and [get] returns "the mutator that this collection
    applies to a variable, if any". *)
Module vscode.

Inductive EnvironmentVariableMutatorType := MReplace | MAppend | MPrepend.

Record EnvironmentVariableMutatorOptions := {
  applyAtProcessCreation : bool;
  applyAtShellIntegration : bool;
}.

Record EnvironmentVariableMutator := {
  mtype : EnvironmentVariableMutatorType;
  mvalue : string;
  moptions : EnvironmentVariableMutatorOptions;
}.

Abbreviation EnvironmentVariableCollection :=
  (gmap string EnvironmentVariableMutator).

(** The options of a call that passes none. *)
Definition default_options : EnvironmentVariableMutatorOptions :=
  {| applyAtProcessCreation := true; applyAtShellIntegration := false |}.

Definition get (variable : string) (c : EnvironmentVariableCollection)
    : option EnvironmentVariableMutator :=
  c !! variable.

Definition replace (variable value : string)
    (options : EnvironmentVariableMutatorOptions)
    (c : EnvironmentVariableCollection) : EnvironmentVariableCollection :=
  <[variable := {| mtype := MReplace; mvalue := value; moptions := options |}]> c.

Definition append (variable value : string)
    (options : EnvironmentVariableMutatorOptions)
    (c : EnvironmentVariableCollection) : EnvironmentVariableCollection :=
  <[variable := {| mtype := MAppend; mvalue := value; moptions := options |}]> c.

Definition prepend (variable value : string)
    (options : EnvironmentVariableMutatorOptions)
    (c : EnvironmentVariableCollection) : EnvironmentVariableCollection :=
  <[variable := {| mtype := MPrepend; mvalue := value; moptions := options |}]> c.

(** The value a new terminal sees for a variable whose inherited value
    is [inherited] ([None] when unset) under an optional mutator. *)
Definition apply (m : option EnvironmentVariableMutator)
    (inherited : option string) : option string :=
  match m with
  | None => inherited
  | Some m =>
      match mtype m with
      | MReplace => Some (mvalue m)
      | MAppend => Some (default "" inherited +:+ mvalue m)
      | MPrepend => Some (mvalue m +:+ default "" inherited)
      end
  end.

Record WorkspaceFolder := {
  name : string;
  fsPath : string;
}.

End vscode.

(** The mutable state the extension works on. *)
Record World := {
  process_env : gmap string string;
  environmentVariableCollection : vscode.EnvironmentVariableCollection;
  console_error : list string;
}.

Definition set_process_env (env : gmap string string) (w : World) : World :=
  {| process_env := env;
     environmentVariableCollection := environmentVariableCollection w;
     console_error := console_error w |}.

Definition set_collection (c : vscode.EnvironmentVariableCollection)
    (w : World) : World :=
  {| process_env := process_env w;
     environmentVariableCollection := c;
     console_error := console_error w |}.

Definition log_errors (msgs : list string) (w : World) : World :=
  {| process_env := process_env w;
     environmentVariableCollection := environmentVariableCollection w;
     console_error := console_error w ++ msgs |}.

(** State over [World] with exceptions; an exception keeps the world as it
    was when it was thrown. *)
Definition M (A : Type) : Type := World → outcome A * World.

Definition ret {A} (a : A) : M A := λ w, (Returned a, w).

Definition bind {A B} (m : M A) (k : A → M B) : M B := λ w,
  match m w with
  | (Returned a, w') => k a w'
  | (Thrown err, w') => (Thrown err, w')
  | (OutOfFuel, w') => (OutOfFuel, w')
  end.

Definition out_of_fuel {A} : M A := λ w, (OutOfFuel, w).
Definition modify (f : World → World) : M unit := λ w, (Returned tt, f w).

#[global] Instance M_ret : MRet M := @ret.
#[global] Instance M_bind : MBind M := λ A B k m, bind m k.

(** ** Settings *)

(** The [environ] section of the configuration; a field is [None] when the
    setting is absent, and every read supplies the default of the call
    [config.get(key, default)]. *)
Record Configuration := {
  cfg_presets : option EnvMap;
  cfg_pathResolves : option PathResolves;
  cfg_envFileName : option string;
  cfg_prependCwdComponentsToPath : option bool;
  cfg_mergeStrategies : option MergeStrategies;
}.

(** The object returned by [getConfiguredEnvironment]. *)
Record ConfiguredEnvironment := {
  config : Configuration;
  presets : EnvMap;
  envFromFiles : EnvMap;
  combined : EnvMap;
  filtered : EnvMap;
  allowed : option (list string);
}.

(** ** The pipeline *)

(** [dotenvExpand.expand({ parsed })]: it reads and writes [process.env]
    and yields the [parsed] field of its result, which may be undefined,
    or throws. *)
Definition Expander : Type :=
  EnvMap → gmap string string → completion (option EnvMap) * gmap string string.

Section Pipeline.

Variable path_resolve : list string → string.
Variable path_dirname : string → string.
Variable path_join : list string → string.
Variable fs_existsSync : string → bool.
(** [fs.readFileSync(p, { encoding: "utf8" })] and [dotenv.parse]. *)
Variable fs_readFileSync : string → completion string.
Variable dotenv_parse : string → completion EnvMap.
Variable dotenvExpand_expand : Expander.
(** [process.platform], the settings and [context.workspaceState]. *)
Variable platform : string.
Variable settings : Configuration.
Variable workspaceState : gmap string (list string).

(** *** expandVariables *)

(** [touchedKeys] and [originalValues]. *)
Definition Snapshot : Type := gset string * gmap string (option string).

Definition rememberOriginal (env : gmap string string) (key : string)
    (s : Snapshot) : Snapshot :=
  let '(touchedKeys, originalValues) := s in
  if decide (key ∈ touchedKeys) then s
  else ({[key]} ∪ touchedKeys, <[key := env !! key]> originalValues).

(** [for (const [key, value] of Object.entries(baseEnv))]. *)
Definition expose_base (baseEnv : EnvMap)
    (st : Snapshot * gmap string string) : Snapshot * gmap string string :=
  map_fold
    (λ key value st,
       (rememberOriginal st.2 key st.1, <[key := value]> st.2))
    st baseEnv.

(** [for (const key of Object.keys(parsed))]. *)
Definition remember_parsed (parsed : EnvMap) (env : gmap string string)
    (s : Snapshot) : Snapshot :=
  map_fold (λ key _ s, rememberOriginal env key s) s parsed.

(** [for (const key of touchedKeys)]. *)
Definition restore (s : Snapshot) (env : gmap string string)
    : gmap string string :=
  set_fold
    (λ key env,
       match s.2 !! key with
       | Some (Some previous) => <[key := previous]> env
       | _ => delete key env
       end)
    env s.1.

Definition expandVariables (map baseEnv : EnvMap) : M EnvMap := λ w,
  if decide (map = ∅) then (Returned ∅, w)
  else
    let parsed := map in
    let st := expose_base baseEnv ((∅, ∅), process_env w) in
    let s := remember_parsed parsed st.2 st.1 in
    match dotenvExpand_expand parsed st.2 with
    | (Throw err, env) => (Thrown err, set_process_env env w)
    | (Normal expansion_parsed, env) =>
        let expanded := default ∅ expansion_parsed in
        (Returned expanded, set_process_env (restore s env) w)
    end.

(** *** parseEnvFiles *)

(** The [try] block up to the inner loop: read, then parse. *)
Definition load (p : string) : completion EnvMap :=
  match fs_readFileSync p with
  | Normal content => dotenv_parse content
  | Throw err => Throw err
  end.

(** [for (const [k, v] of Object.entries(parsed)) merged[k] = String(v)]. *)
Definition assign_entries (merged parsed : EnvMap) : EnvMap :=
  map_fold (λ k v merged, <[k := v]> merged) merged parsed.

Definition failed_to_parse (p err : string) : string :=
  "Environ: failed to parse " +:+ p +:+ ": " +:+ err.

(** One iteration of [for (const p of paths)], on the pair of [merged]
    and the lines written by [console.error]. *)
Definition parseEnvFiles_step (acc : EnvMap * list string) (p : string)
    : EnvMap * list string :=
  match load p with
  | Normal parsed => (assign_entries acc.1 parsed, acc.2)
  | Throw err => (acc.1, acc.2 ++ [failed_to_parse p err])
  end.

Definition parseEnvFiles_loop (paths : list string) : EnvMap * list string :=
  foldl parseEnvFiles_step (∅, []) paths.

Definition parseEnvFiles (paths : list string) (expansionBase : EnvMap)
    : M EnvMap :=
  let acc := parseEnvFiles_loop paths in
  modify (log_errors acc.2) ;;
  expandVariables acc.1 expansionBase.

(** *** readEnvFiles *)

Definition readEnvFiles (fuel : nat) (folder : vscode.WorkspaceFolder)
    (envFileName : string) (expansionBase : EnvMap) : M (option EnvMap) :=
  let start := vscode.fsPath folder in
  match findEnvFilesUpwards path_resolve path_dirname path_join
          fs_existsSync fuel start envFileName with
  | None => out_of_fuel
  | Some [] => mret None
  | Some envPaths =>
      env ← parseEnvFiles envPaths expansionBase; mret (Some env)
  end.

(** *** filterEnvByAllowed *)

Definition getAllowedForFolder (folder : vscode.WorkspaceFolder)
    : option (list string) :=
  workspaceState !! ("environ.allowed:" +:+ vscode.fsPath folder).

Definition filterEnvByAllowed (env : EnvMap) (allowed : option (list string))
    : EnvMap :=
  match allowed with
  | None | Some [] => env
  | Some allowed =>
      foldl
        (λ out k,
           match env !! k with
           | Some v => <[k := v]> out
           | None => out
           end)
        ∅ allowed
  end.

(** *** resolveEnvironments

    In [resolved[key] || value] an undefined entry is as falsy as the
    empty string. *)

Definition resolveEnvironments (folder : vscode.WorkspaceFolder)
    (variables : EnvMap) : M EnvMap := λ w,
  let pathResolves := default ∅ (cfg_pathResolves settings) in
  let st :=
    map_fold
      (λ key value (st : EnvMap * gmap string string),
         let r :=
           path_resolve
             [ JS.or_ value (vscode.fsPath folder);
               JS.or_ (JS.nullish (st.1 !! key) "") value ] in
         (<[key := r]> st.1, <[key := r]> st.2))
      (variables, process_env w) pathResolves in
  (Returned st.1, set_process_env st.2 w).

(** *** getConfiguredEnvironment *)

Definition getConfiguredEnvironment (fuel : nat)
    (folder : vscode.WorkspaceFolder) : M ConfiguredEnvironment :=
  let presets := default ∅ (cfg_presets settings) in
  resolvedPresets ← resolveEnvironments folder presets;
  let envFileName :=
    default DEFAULT_ENV_FILE_NAME (cfg_envFileName settings) in
  fromFiles ← readEnvFiles fuel folder envFileName presets;
  let envFromFiles := default ∅ fromFiles in
  combined ← resolveEnvironments folder
               (JS.spread2 resolvedPresets envFromFiles);
  let allowed := getAllowedForFolder folder in
  filtered ← expandVariables (filterEnvByAllowed combined allowed) ∅;
  mret {| config := settings; presets := presets;
          envFromFiles := envFromFiles; combined := combined;
          filtered := filtered; allowed := allowed |}.

(** *** updateEnvironmentVariableCollection *)

Definition options : vscode.EnvironmentVariableMutatorOptions :=
  {| vscode.applyAtProcessCreation := false;
     vscode.applyAtShellIntegration := true |}.

(** [context.environmentVariableCollection.get(key)?.value]. *)
Definition collection_value (key : string) (w : World) : option string :=
  vscode.mvalue <$> vscode.get key (environmentVariableCollection w).

(** One iteration of [for (const [key, value] of Object.entries(filtered))],
    on [ensured] and the world. The value read back cannot be undefined,
    the collection having just been written at [key]. *)
Definition ensure_entry (mergeStrategies : MergeStrategies)
    (key value : string) (st : EnvMap * World) : EnvMap * World :=
  let strategy := default Replace (mergeStrategies !! key) in
  let currentValue := JS.nullish (collection_value key st.2) "" in
  let collection := environmentVariableCollection st.2 in
  let collection :=
    match strategy with
    | Prepend =>
        vscode.prepend key
          (value +:+ JS.and_ currentValue (pathSeparator platform))
          options collection
    | Append =>
        vscode.append key
          (JS.and_ currentValue (pathSeparator platform) +:+ value)
          options collection
    | Replace => vscode.replace key value options collection
    end in
  let w := set_collection collection st.2 in
  let ensuredValue := JS.nullish (collection_value key w) "undefined" in
  (<[key := ensuredValue]> st.1,
   set_process_env (<[key := ensuredValue]> (process_env w)) w).

(** The loop that applies the merge strategies. *)
Definition apply_strategies (mergeStrategies : MergeStrategies)
    (filtered : EnvMap) (st : EnvMap * World) : EnvMap * World :=
  map_fold (ensure_entry mergeStrategies) st filtered.

(** The block guarded by [if (prependPaths)]. *)
Definition prepend_cwd_components (fuel : nat)
    (folder : vscode.WorkspaceFolder) (st : EnvMap * World)
    : option (EnvMap * World) :=
  let workspacePath := vscode.fsPath folder in
  match getParentDirectories path_resolve path_dirname fuel workspacePath with
  | None => None
  | Some directories =>
      let prependString :=
        JS.join (pathSeparator platform) directories
        +:+ pathSeparator platform in
      let w :=
        set_collection
          (vscode.prepend "PATH" prependString vscode.default_options
             (environmentVariableCollection st.2))
          st.2 in
      match collection_value "PATH" w with
      | Some ensuredPath =>
          Some (<["PATH" := ensuredPath]> st.1,
                set_process_env (<["PATH" := ensuredPath]> (process_env w)) w)
      | None => Some (st.1, w)
      end
  end.

(** The registration of one command per variable, which follows in the
    source, reads but does not change the state modelled here. *)
Definition updateEnvironmentVariableCollection (fuel : nat)
    (folder : option vscode.WorkspaceFolder) : M EnvMap :=
  match folder with
  | None => mret ∅
  | Some folder =>
      ce ← getConfiguredEnvironment fuel folder;
      if decide (filtered ce = ∅) then mret ∅
      else
        let prependPaths :=
          default true (cfg_prependCwdComponentsToPath (config ce)) in
        let mergeStrategies :=
          default DEFAULT_MERGE_STRATEGIES
            (cfg_mergeStrategies (config ce)) in
        λ w,
          let st := apply_strategies mergeStrategies (filtered ce) (∅, w) in
          if prependPaths then
            match prepend_cwd_components fuel folder st with
            | Some st' => (Returned st'.1, st'.2)
            | None => (OutOfFuel, st.2)
            end
          else (Returned st.1, st.2)
  end.

End Pipeline.

(** ** Vocabulary of the statements about the pipeline *)

(** The expander changes [process.env] at the keys of its argument only,
    as [dotenv-expand] does when it copies the expanded entries. *)
Definition writes_only_parsed (expand : Expander) : Prop :=
  ∀ parsed env k, parsed !! k = None → (expand parsed env).2 !! k = env !! k.

(** The snapshot [s] taken while [process.env] went from [env0] to [env]:
    it holds the value [env0] had at each touched key, and no other key of
    [process.env] has changed. *)
Definition snapshot_of (env0 : gmap string string) (s : Snapshot)
    (env : gmap string string) : Prop :=
  (∀ k, k ∈ s.1 → s.2 !! k = Some (env0 !! k))
  ∧ (∀ k, k ∉ s.1 → env !! k = env0 !! k).

(** The maps of the files that are read and parsed without an exception,
    in the order of the paths, and the lines logged for the others. *)
Definition layers (load : string → completion EnvMap) (paths : list string)
    : list EnvMap :=
  omap (λ p, match load p with Normal parsed => Some parsed | Throw _ => None end)
    paths.

Definition failures (load : string → completion EnvMap) (paths : list string)
    : list string :=
  omap (λ p, match load p with
             | Normal _ => None
             | Throw err => Some (failed_to_parse p err)
             end)
    paths.

(** The mutator that one iteration of the loop over [filtered] leaves in
    the collection for a key, given the strategy of the key and the value
    the collection held for it before. *)
Definition stored_value (platform : string) (strategy : MergeStrategy)
    (currentValue value : string) : string :=
  match strategy with
  | Prepend => value +:+ JS.and_ currentValue (pathSeparator platform)
  | Append => JS.and_ currentValue (pathSeparator platform) +:+ value
  | Replace => value
  end.

Definition mutator_type (strategy : MergeStrategy)
    : vscode.EnvironmentVariableMutatorType :=
  match strategy with
  | Prepend => vscode.MPrepend
  | Append => vscode.MAppend
  | Replace => vscode.MReplace
  end.

Definition stored_mutator (platform : string) (strategy : MergeStrategy)
    (currentValue value : string) : vscode.EnvironmentVariableMutator :=
  {| vscode.mtype := mutator_type strategy;
     vscode.mvalue := stored_value platform strategy currentValue value;
     vscode.moptions := options |}.


(** ** Instances on which the functions are run

    A POSIX reading of [path], a file system given by a table, a line parser
    for [KEY=VALUE] files and two expanders. They stand for the libraries
    where a statement is evaluated on concrete data; no general result
    depends on them. *)

Module Posix.

Definition chars (s : string) : list ascii := String.list_ascii_of_string s.
Definition text (cs : list ascii) : string := String.string_of_list_ascii cs.
Definition is_slash (c : ascii) : bool := Ascii.eqb c "/"%char.

(** The pieces of [cs] between occurrences of a separator. *)
Fixpoint split_at (is_sep : ascii → bool) (cs cur : list ascii)
    : list (list ascii) :=
  match cs with
  | [] => [rev cur]
  | c :: cs' =>
      if is_sep c then rev cur :: split_at is_sep cs' []
      else split_at is_sep cs' (c :: cur)
  end.

Fixpoint dropwhile (p : ascii → bool) (cs : list ascii) : list ascii :=
  match cs with
  | c :: cs' => if p c then dropwhile p cs' else cs
  | [] => []
  end.

Fixpoint takewhile (p : ascii → bool) (cs : list ascii) : list ascii :=
  match cs with
  | c :: cs' => if p c then c :: takewhile p cs' else []
  | [] => []
  end.

Definition segments (s : string) : list string :=
  text <$> split_at is_slash (chars s) [].

(** [normalizeString]: empty and [.] segments vanish, [..] pops. *)
Definition normalize_step (acc : list string) (seg : string) : list string :=
  if decide (seg = "" ∨ seg = ".") then acc
  else if decide (seg = "..") then tail acc
  else seg :: acc.

Definition normalize (segs : list string) : list string :=
  rev (foldl normalize_step [] segs).

Definition render (segs : list string) : string :=
  "/" +:+ String.concat "/" segs.

Definition is_absolute (s : string) : bool :=
  match chars s with
  | c :: _ => is_slash c
  | [] => false
  end.

(** [path.resolve]: arguments are taken from the right until one is
    absolute, the working directory being the last resort. *)
Fixpoint resolve_from (cwd : string) (rargs : list string) (acc : string)
    : string :=
  match rargs with
  | [] => cwd +:+ "/" +:+ acc
  | a :: rest =>
      if decide (a = "") then resolve_from cwd rest acc
      else if is_absolute a then a +:+ "/" +:+ acc
      else resolve_from cwd rest (a +:+ "/" +:+ acc)
  end.

Definition resolve (cwd : string) (args : list string) : string :=
  render (normalize (segments (resolve_from cwd (rev args) ""))).

(** [path.join] of segments the first of which is absolute. *)
Definition join (args : list string) : string :=
  render (normalize (segments (String.concat "/" args))).

(** [path.dirname]: skip trailing slashes and the last segment from the
    right, never looking at the first character. *)
Definition dirname (s : string) : string :=
  match chars s with
  | [] => "."
  | c0 :: rest =>
      let r1 := dropwhile is_slash (rev rest) in
      let r2 := dropwhile (λ c, negb (is_slash c)) r1 in
      match r2 with
      | [] => if is_slash c0 then "/" else "."
      | _ :: r3 =>
          if is_slash c0 && bool_decide (r3 = []) then "//"
          else text (c0 :: rev r3)
      end
  end.

(** A segment of a normalized path: not empty, and without a slash. *)
Definition no_slash (cs : list ascii) : Prop :=
  Forall (λ c, is_slash c = false) cs.

Definition good (seg : string) : Prop :=
  seg ≠ "" ∧ no_slash (chars seg).

End Posix.

Module Sample.

(** A file system: a path is absent, or holds a text, or cannot be read. *)
Definition FileSystem : Type := gmap string (completion string).

Definition existsSync (files : FileSystem) (p : string) : bool :=
  bool_decide (is_Some (files !! p)).

Definition readFileSync (files : FileSystem) (p : string)
    : completion string :=
  match files !! p with
  | Some c => c
  | None => Throw ("ENOENT: no such file or directory, open '" +:+ p +:+ "'")
  end.

(** [KEY=VALUE] lines; blank lines and lines starting with [#] are
    skipped. *)
Definition parse_line (line : list ascii) : option (string * string) :=
  match line with
  | [] => None
  | c :: _ =>
      if Ascii.eqb c "#"%char then None
      else
        let is_eq c := Ascii.eqb c "="%char in
        match Posix.dropwhile (λ c, negb (is_eq c)) line with
        | [] => None
        | _ :: v =>
            Some (Posix.text (Posix.takewhile (λ c, negb (is_eq c)) line),
                  Posix.text v)
        end
  end.

Definition parse (content : string) : completion EnvMap :=
  Normal
    (foldl
       (λ m line,
          match parse_line line with
          | Some (k, v) => <[k := v]> m
          | None => m
          end)
       ∅
       (Posix.split_at (λ c, Ascii.eqb c "010"%char) (Posix.chars content) [])).

(** An expander for values without references: like [dotenv-expand] it
    copies the entries it was given into [process.env]. *)
Definition expand_copy (parsed : EnvMap) (env : gmap string string)
    : completion (option EnvMap) * gmap string string :=
  (Normal (Some parsed), parsed ∪ env).

(** An expander that fails before it writes anything. *)
Definition expand_throw (parsed : EnvMap) (env : gmap string string)
    : completion (option EnvMap) * gmap string string :=
  (Throw "RangeError: Maximum call stack size exceeded", env).

(** [/.env] holds [A=1], [/proj/.env] holds [A=2] and [B=3], the two
    variants exist in [/proj], and [/proj/sub/.env] is a directory. *)
Definition files : FileSystem :=
  {[ "/.env" := Normal "A=1";
     "/proj/.env" := Normal ("A=2" +:+ String "010" "B=3");
     "/proj/.vscode/.env" := Normal "C=4";
     "/proj/sub/.env" :=
       Throw "EISDIR: illegal operation on a directory, read" ]}.

Definition folder (p : string) : vscode.WorkspaceFolder :=
  {| vscode.name := "workspace"; vscode.fsPath := p |}.

Definition no_settings : Configuration :=
  {| cfg_presets := None; cfg_pathResolves := None; cfg_envFileName := None;
     cfg_prependCwdComponentsToPath := None; cfg_mergeStrategies := None |}.

Definition empty_world : World :=
  {| process_env := ∅; environmentVariableCollection := ∅;
     console_error := [] |}.

(** Settings that declare [DATA_DIR] as a path relative to the folder. *)
Definition data_settings : Configuration :=
  {| cfg_presets := Some {[ "DATA_DIR" := "data" ]};
     cfg_pathResolves := Some {[ "DATA_DIR" := "" ]};
     cfg_envFileName := None;
     cfg_prependCwdComponentsToPath := None; cfg_mergeStrategies := None |}.

(** A world whose collection already holds a value for [PATH]. *)
Definition old_path_world : World :=
  {| process_env := {[ "PATH" := "/usr/bin" ]};
     environmentVariableCollection :=
       {[ "PATH" := {| vscode.mtype := vscode.MPrepend;
                       vscode.mvalue := "/old/bin";
                       vscode.moptions := options |} ]};
     console_error := [] |}.

(** A world that has [PATH] in [process.env] and an empty collection. *)
Definition fresh_world : World :=
  {| process_env := {[ "PATH" := "/usr/bin" ]};
     environmentVariableCollection := ∅;
     console_error := [] |}.

End Sample.

(** ** The allow-list in [context.workspaceState] *)

(** [Memento.update(key, value)]: the value [undefined] removes the key. *)
Definition memento_update {V} (key : string) (value : option V)
    (m : gmap string V) : gmap string V :=
  match value with
  | None => delete key m
  | Some v => <[key := v]> m
  end.

Definition stateKeyForFilter (folder : vscode.WorkspaceFolder) : string :=
  "environ.allowed:" +:+ vscode.fsPath folder.

Definition setAllowedForFolder (folder : vscode.WorkspaceFolder)
    (keys : option (list string)) (workspaceState : gmap string (list string))
    : gmap string (list string) :=
  match keys with
  | None => memento_update (stateKeyForFilter folder) None workspaceState
  | Some keys =>
      memento_update (stateKeyForFilter folder) (Some keys) workspaceState
  end.

(** ** The command registered for a variable

    The callback of [environ.$<key>]:
    [collection.get(key)?.value ?? process.env[key] ?? ""]. *)
Definition variable_command (key : string) (w : World) : string :=
  JS.nullish (collection_value key w) (JS.nullish (process_env w !! key) "").

(** ** Tasks and debug configurations

    An options object is its [env] field and its remaining fields, kept as
    a dictionary that the providers copy without looking into it. *)
Module tasks.

Record Options (V : Type) := {
  env : option EnvMap;
  other : gmap string V;
}.
Arguments env {V} _.
Arguments other {V} _.

Inductive Execution (V : Type) :=
| ShellExecution (commandLine command : option string)
    (options : option (Options V))
| ProcessExecution (process : string) (args : list string)
    (options : option (Options V))
| CustomExecution.
Arguments ShellExecution {V} commandLine command options.
Arguments ProcessExecution {V} process args options.
Arguments CustomExecution {V}.

Inductive TaskScope := Global | Workspace | Folder (f : vscode.WorkspaceFolder).

Record Task (D V : Type) := {
  definition : D;
  scope : option TaskScope;
  name : string;
  source : string;
  execution : option (Execution V);
  problemMatchers : list string;
}.
Arguments definition {D V} _.
Arguments scope {D V} _.
Arguments name {D V} _.
Arguments source {D V} _.
Arguments execution {D V} _.
Arguments problemMatchers {D V} _.

(** [execution.options?.env]. *)
Definition options_env {V} (options : option (Options V)) : option EnvMap :=
  options ≫= env.

(** [{ ...execution.options, env: newEnv }]. *)
Definition with_env {V} (options : option (Options V)) (newEnv : EnvMap)
    : Options V :=
  {| env := Some newEnv; other := default ∅ (other <$> options) |}.

(** The environment of the execution of a task, when it has one. *)
Definition execution_env {V} (e : Execution V) : option EnvMap :=
  match e with
  | ShellExecution _ _ options | ProcessExecution _ _ options =>
      options_env options
  | CustomExecution => None
  end.

End tasks.

Module debug.

Record DebugConfiguration (V : Type) := {
  env : option EnvMap;
  other : gmap string V;
}.
Arguments env {V} _.
Arguments other {V} _.

End debug.

Section Providers.

Variable path_resolve : list string → string.
Variable path_dirname : string → string.
Variable path_join : list string → string.
Variable fs_existsSync : string → bool.
Variable fs_readFileSync : string → completion string.
Variable dotenv_parse : string → completion EnvMap.
Variable dotenvExpand_expand : Expander.
Variable platform : string.
Variable settings : Configuration.
Variable workspaceState : gmap string (list string).
(** [primaryWorkspaceFolder], the default argument of
    [updateEnvironmentVariableCollection]. *)
Variable primaryWorkspaceFolder : option vscode.WorkspaceFolder.

(** [{ ...process.env, ...execution.options?.env, ...ensured }]. *)
Definition task_env {V} (env0 : gmap string string)
    (options : option (tasks.Options V)) (ensured : EnvMap) : EnvMap :=
  JS.spread2 (JS.spread2 env0 (default ∅ (tasks.options_env options))) ensured.

(** [taskProvider.resolveTask]. The object literal copies [process.env]
    before it calls [updateEnvironmentVariableCollection()]. *)
Definition resolveTask {D V} (fuel : nat) (task : tasks.Task D V)
    : M (option (tasks.Task D V)) := λ w,
  let rebuild (execution : tasks.Execution V) : tasks.Task D V :=
    {| tasks.definition := tasks.definition task;
       tasks.scope := Some (default tasks.Workspace (tasks.scope task));
       tasks.name := tasks.name task;
       tasks.source := tasks.source task;
       tasks.execution := Some execution;
       tasks.problemMatchers := tasks.problemMatchers task |} in
  match tasks.execution task with
  | Some (tasks.ShellExecution commandLine command options) =>
      let env0 := process_env w in
      match updateEnvironmentVariableCollection path_resolve path_dirname
              path_join fs_existsSync fs_readFileSync dotenv_parse
              dotenvExpand_expand platform settings workspaceState
              fuel primaryWorkspaceFolder w with
      | (Returned ensured, w') =>
          let newEnv := task_env env0 options ensured in
          let newCommandLine :=
            match commandLine with
            | Some c => if decide (c = "") then command else Some c
            | None => command
            end in
          (Returned
             (Some (rebuild
                      (tasks.ShellExecution newCommandLine None
                         (Some (tasks.with_env options newEnv))))),
           w')
      | (Thrown err, w') => (Thrown err, w')
      | (OutOfFuel, w') => (OutOfFuel, w')
      end
  | Some (tasks.ProcessExecution process args options) =>
      let env0 := process_env w in
      match updateEnvironmentVariableCollection path_resolve path_dirname
              path_join fs_existsSync fs_readFileSync dotenv_parse
              dotenvExpand_expand platform settings workspaceState
              fuel primaryWorkspaceFolder w with
      | (Returned ensured, w') =>
          let newEnv := task_env env0 options ensured in
          (Returned
             (Some (rebuild
                      (tasks.ProcessExecution process args
                         (Some (tasks.with_env options newEnv))))),
           w')
      | (Thrown err, w') => (Thrown err, w')
      | (OutOfFuel, w') => (OutOfFuel, w')
      end
  | _ => (Returned None, w)
  end.

(** [debugProvider.resolveDebugConfiguration]:
    [Object.assign({}, filtered, existingEnv)]. *)
Definition resolveDebugConfiguration {V} (fuel : nat)
    (folder : option vscode.WorkspaceFolder)
    (debugConfiguration : option (debug.DebugConfiguration V))
    : M (option (debug.DebugConfiguration V)) :=
  match folder with
  | None => mret debugConfiguration
  | Some folder =>
      ce ← getConfiguredEnvironment path_resolve path_dirname path_join
             fs_existsSync fs_readFileSync dotenv_parse dotenvExpand_expand
             settings workspaceState fuel folder;
      let existingEnv := default ∅ (debugConfiguration ≫= debug.env) in
      mret (Some {| debug.env := Some (JS.spread2 (filtered ce) existingEnv);
                    debug.other :=
                      default ∅ (debug.other <$> debugConfiguration) |})
  end.

End Providers.

(** ** Commands *)

(** [String.prototype.includes]. *)
Fixpoint includes (needle s : string) : bool :=
  if String.prefix needle s then true
  else match s with
       | EmptyString => false
       | String _ s' => includes needle s'
       end.

(** The [validateInput] callback of [environ.configureEnvFileName];
    [trim] is [String.prototype.trim]. *)
Definition validateInput (trim : string → string) (value : string)
    : option string :=
  if bool_decide (value = "") || bool_decide (trim value = "") then
    Some "File name cannot be empty"
  else if includes "/" value || includes "\" value then
    Some "File name cannot contain path separators"
  else None.

(** What [pickWorkspaceFolder] shows to the user. *)
Inductive Shown :=
| InformationMessage (message : string)
| QuickPick (items : list (string * string)) (placeHolder : string).

(** [pickWorkspaceFolder], on [vscode.workspace.workspaceFolders ?? []];
    [showQuickPick] is the answer of the user to a quick pick. *)
Definition pickWorkspaceFolder (wsFolders : list vscode.WorkspaceFolder)
    (showQuickPick : list (string * string) → option (string * string))
    : option vscode.WorkspaceFolder * list Shown :=
  if decide (length wsFolders = 0) then
    (None, [InformationMessage "Environ: no workspace folder open."])
  else
    match wsFolders !! 0 with
    | Some folder => (Some folder, [])
    | None =>
        let items :=
          (λ f, (vscode.name f, vscode.fsPath f)) <$> wsFolders in
        let shown :=
          [QuickPick items "Choose workspace folder to show env status"] in
        match showQuickPick items with
        | None => (None, shown)
        | Some pick =>
            (list_find (λ f, vscode.name f = pick.1) wsFolders ≫=
               (λ r, Some r.2),
             shown)
        end
    end.

(** ** Frame conditions *)

(** A computation that leaves the environment variable collection as it
    found it, whatever its outcome. *)
Definition keeps_collection {A} (m : M A) : Prop :=
  ∀ w, environmentVariableCollection (m w).2 = environmentVariableCollection w.

(** * Results *)

(** ** Lists *)

Lemma listed_before_split (x y : string) (a b c : list string) :
  listed_before x y (a ++ x :: b ++ y :: c).
Proof.
  exists (length a), (length a + S (length b)). split; [lia|]. split.
  - by rewrite list_lookup_middle.
  - rewrite lookup_app_r by lia.
    replace (length a + S (length b) - length a) with (S (length b)) by lia.
    simpl. by rewrite list_lookup_middle.
Qed.

Lemma flat_map_listed_before (f : string → list string)
    (ds : list string) (i j : nat) (d1 d2 x y : string) :
  i < j → ds !! i = Some d1 → ds !! j = Some d2 →
  x ∈ f d1 → y ∈ f d2 →
  listed_before x y (flat_map f ds).
Proof.
  intros Hij H1 H2 Hx Hy.
  apply list_elem_of_split in Hx as (x1 & x2 & Hx).
  apply list_elem_of_split in Hy as (y1 & y2 & Hy).
  assert (ds = take i ds ++ d1 :: take (j - S i) (drop (S i) ds)
                 ++ d2 :: drop (S j) ds) as ->.
  { rewrite <-(take_drop_middle ds i d1) at 1 by done. f_equal. f_equal.
    rewrite <-(take_drop_middle (drop (S i) ds) (j - S i) d2) at 1.
    - f_equal. f_equal. rewrite drop_drop. f_equal. lia.
    - rewrite lookup_drop. rewrite <-H2. f_equal. lia. }
  rewrite flat_map_app. simpl. rewrite flat_map_app. simpl.
  rewrite Hx, Hy.
  rewrite <-!app_assoc. simpl.
  rewrite (app_assoc _ x1), (app_assoc x2), (app_assoc _ y1).
  apply listed_before_split.
Qed.

(** ** Directory chain and file discovery *)

Section DiscoveryFacts.

Variable path_resolve : list string → string.
Variable path_dirname : string → string.
Variable path_join : list string → string.
Variable fs_existsSync : string → bool.

Local Abbreviation depth_of := (depth_of path_dirname).
Local Abbreviation ancestors := (ancestors path_dirname).
Local Abbreviation found_in := (found_in path_join fs_existsSync).

Lemma depth_of_functional p n m : depth_of p n → depth_of p m → n = m.
Proof.
  intros Hn. revert m.
  induction Hn as [p Hp|p n Hp _ IH]; intros m Hm; inversion Hm; subst;
    try done.
  f_equal. by apply IH.
Qed.

Lemma length_ancestors n p : length (ancestors n p) = S n.
Proof. revert p. induction n as [|n IH]; intros p; simpl; [done|]. by rewrite IH. Qed.

Lemma head_ancestors n p : head (ancestors n p) = Some p.
Proof. by destruct n. Qed.

Lemma last_ancestors n p :
  depth_of p n →
  ∃ root, last (ancestors n p) = Some root ∧ path_dirname root = root.
Proof.
  induction 1 as [p Hp|p n Hp Hd (root & Hl & Hr)].
  - by exists p.
  - exists root. split; [|done].
    change (ancestors (S n) p) with (p :: ancestors n (path_dirname p)).
    rewrite last_cons, Hl. done.
Qed.

Lemma no_adjacent_dup_ancestors n p :
  depth_of p n → no_adjacent_dup (ancestors n p).
Proof.
  induction 1 as [p Hp|p n Hp Hd IH]; [done|].
  change (ancestors (S n) p) with (p :: ancestors n (path_dirname p)).
  destruct n; simpl in *; split; try done; by apply not_eq_sym.
Qed.

(** The loop of [getParentDirectories] ends as soon as the fuel exceeds
    the depth, having pushed the path and its ancestors in that order. *)
Lemma getParentDirectories_loop_ancestors p n :
  depth_of p n →
  ∀ fuel paths, n < fuel →
    getParentDirectories_loop path_dirname fuel p paths
    = Some (paths ++ ancestors n p).
Proof.
  induction 1 as [p Hp|p n Hp Hd IH]; intros [|fuel] paths Hfuel;
    try lia; simpl.
  - by rewrite decide_True.
  - rewrite decide_False by done. rewrite IH by lia.
    by rewrite <-app_assoc.
Qed.

Lemma getParentDirectories_ancestors startPath n fuel :
  depth_of (path_resolve [startPath]) n → n < fuel →
  getParentDirectories path_resolve path_dirname fuel startPath
  = Some (ancestors n (path_resolve [startPath])).
Proof.
  intros Hd Hfuel. unfold getParentDirectories.
  by rewrite (getParentDirectories_loop_ancestors _ n).
Qed.

Lemma unshift_candidates envFileName current envPaths :
  foldl (unshift_existing fs_existsSync) envPaths
    (candidates path_join current envFileName)
  = found_in envFileName current ++ envPaths.
Proof.
  unfold candidates, found_in, unshift_existing. simpl.
  rewrite !filter_cons, filter_nil.
  destruct (fs_existsSync (path_join [current; ".vscode"; envFileName])),
           (fs_existsSync (path_join [current; envFileName]));
    repeat case_decide; try done.
Qed.

Lemma findEnvFilesUpwards_loop_found envFileName p n :
  depth_of p n →
  ∀ fuel envPaths, n < fuel →
    findEnvFilesUpwards_loop path_dirname path_join fs_existsSync
      fuel p envFileName envPaths
    = Some (flat_map (found_in envFileName) (rev (ancestors n p))
            ++ envPaths).
Proof.
  induction 1 as [p Hp|p n Hp Hd IH]; intros [|fuel] envPaths Hfuel;
    try lia; cbn [findEnvFilesUpwards_loop].
  - rewrite decide_True by done. rewrite unshift_candidates.
    simpl. by rewrite app_nil_r.
  - rewrite decide_False by done. rewrite IH by lia.
    rewrite unshift_candidates.
    change (ancestors (S n) p)
      with (p :: ancestors n (path_dirname p)).
    simpl rev. rewrite flat_map_app. simpl.
    by rewrite app_nil_r, <-app_assoc.
Qed.

End DiscoveryFacts.

(** *** The POSIX instance: every resolved path has a depth *)

Lemma chars_app a b : Posix.chars (a +:+ b) = Posix.chars a ++ Posix.chars b.
Proof.
  unfold Posix.chars. induction a as [|c a IH]; [done|].
  change (String c a +:+ b) with (String c (a +:+ b)). simpl. by rewrite IH.
Qed.

Lemma chars_text cs : Posix.chars (Posix.text cs) = cs.
Proof. apply list_ascii_of_string_of_list_ascii. Qed.

Lemma text_chars s : Posix.text (Posix.chars s) = s.
Proof. apply string_of_list_ascii_of_string. Qed.

Lemma chars_nil s : Posix.chars s = [] → s = "".
Proof. by destruct s. Qed.

Lemma concat_snoc (init : list string) (l : string) :
  init ≠ [] →
  Posix.chars (String.concat "/" (init ++ [l]))
  = Posix.chars (String.concat "/" init) ++ "/"%char :: Posix.chars l.
Proof.
  induction init as [|a [|b init] IH]; [done| |]; intros _.
  - simpl. by rewrite chars_app.
  - change (String.concat "/" ((a :: b :: init) ++ [l]))
      with (a +:+ "/" +:+ String.concat "/" ((b :: init) ++ [l])).
    change (String.concat "/" (a :: b :: init))
      with (a +:+ "/" +:+ String.concat "/" (b :: init)).
    rewrite !chars_app. rewrite IH by done. by rewrite <-!app_assoc.
Qed.

Lemma dropwhile_app p xs ys :
  Forall (λ c, p c = true) xs →
  Posix.dropwhile p (xs ++ ys) = Posix.dropwhile p ys.
Proof. induction 1 as [|x xs Hx _ IH]; simpl; [done|]. by rewrite Hx. Qed.

Lemma dropwhile_stop p xs :
  match xs with x :: _ => p x = false | [] => True end →
  Posix.dropwhile p xs = xs.
Proof. destruct xs as [|x xs]; simpl; [done|]. by intros ->. Qed.

Lemma dirname_render init l :
  Posix.good l → Forall Posix.good init →
  Posix.dirname (Posix.render (init ++ [l])) = Posix.render init.
Proof.
  intros [Hne Hl] Hinit. unfold Posix.dirname, Posix.render.
  rewrite chars_app. change (Posix.chars "/") with ["/"%char]. simpl.
  assert (Forall (λ c, negb (Posix.is_slash c) = true)
            (rev (Posix.chars l))) as Hrev.
  { apply Forall_rev. eapply Forall_impl; [exact Hl|].
    intros c Hc. simpl in Hc. by rewrite Hc. }
  assert (match rev (Posix.chars l) with
          | x :: _ => Posix.is_slash x = false
          | [] => True
          end) as Hhead.
  { destruct (rev (Posix.chars l)) as [|x xs]; [done|].
    apply Forall_cons in Hrev as [Hx _]. by destruct (Posix.is_slash x). }
  destruct init as [|a init].
  - simpl. rewrite (dropwhile_stop Posix.is_slash) by done.
    rewrite <-(app_nil_r (rev _)), dropwhile_app by done. done.
  - rewrite concat_snoc by done. rewrite rev_app_distr. simpl.
    rewrite <-app_assoc. simpl.
    rewrite (dropwhile_stop Posix.is_slash).
    2:{ destruct (rev (Posix.chars l)) as [|x xs] eqn:Hd; [|done].
        apply (f_equal (@rev ascii)) in Hd. rewrite rev_involutive in Hd.
        simpl in Hd. by apply chars_nil in Hd. }
    rewrite dropwhile_app by done. simpl.
    assert (rev (Posix.chars (String.concat "/" (a :: init))) ≠ []) as Hbody.
    { intros Hd. apply (f_equal (@rev ascii)) in Hd.
      rewrite rev_involutive in Hd. simpl in Hd. apply chars_nil in Hd.
      apply Forall_cons in Hinit as [[Ha _] _].
      destruct init; simpl in Hd; [done|].
      destruct a; [done|]. discriminate. }
    rewrite bool_decide_false by done. simpl.
    rewrite rev_involutive.
    change ("/"%char :: Posix.chars (String.concat "/" (a :: init)))
      with (Posix.chars (String "/" (String.concat "/" (a :: init)))).
    by rewrite text_chars.
Qed.

Lemma length_chars_render_snoc init l :
  length (Posix.chars (Posix.render init))
  < length (Posix.chars (Posix.render (init ++ [l]))) ∨ l = "".
Proof.
  unfold Posix.render. rewrite !chars_app, !length_app.
  destruct init as [|a init].
  - simpl. destruct l; [by right|left]. simpl. lia.
  - rewrite concat_snoc by done. rewrite length_app. simpl. left. lia.
Qed.

Lemma depth_of_render segs :
  Forall Posix.good segs →
  depth_of Posix.dirname (Posix.render segs) (length segs).
Proof.
  induction segs as [|l init IH] using rev_ind; intros Hgood.
  - apply depth_root. by vm_compute.
  - apply Forall_app in Hgood as [Hinit [Hl _]%Forall_cons].
    rewrite length_app. simpl. replace (length init + 1) with (S (length init)) by lia.
    apply depth_step; rewrite dirname_render by done.
    + intros Heq.
      destruct (length_chars_render_snoc init l) as [Hlt| ->].
      * rewrite Heq in Hlt. lia.
      * by destruct Hl.
    + by apply IH.
Qed.

Lemma split_at_no_slash cs cur :
  Posix.no_slash cur →
  Forall Posix.no_slash (Posix.split_at Posix.is_slash cs cur).
Proof.
  unfold Posix.no_slash. revert cur.
  induction cs as [|c cs IH]; intros cur Hcur; simpl.
  - apply Forall_singleton. by apply Forall_rev.
  - destruct (Posix.is_slash c) eqn:Hc.
    + apply Forall_cons. split; [by apply Forall_rev|].
      apply IH. constructor.
    + apply IH. by apply Forall_cons.
Qed.

Lemma segments_no_slash s :
  Forall (λ seg, Posix.no_slash (Posix.chars seg)) (Posix.segments s).
Proof.
  unfold Posix.segments. apply Forall_fmap.
  eapply Forall_impl; [apply split_at_no_slash; constructor|].
  intros cs Hcs. simpl. by rewrite chars_text.
Qed.

Lemma normalize_good segs :
  Forall (λ seg, Posix.no_slash (Posix.chars seg)) segs →
  Forall Posix.good (Posix.normalize segs).
Proof.
  intros Hsegs. unfold Posix.normalize. apply Forall_rev.
  assert (Forall Posix.good ([] : list string)) as Hacc by done.
  revert Hacc. generalize ([] : list string).
  induction Hsegs as [|seg segs Hseg _ IH]; intros acc Hacc; simpl; [done|].
  apply IH. unfold Posix.normalize_step.
  repeat case_decide; [done| |].
  - destruct acc; [done|]. by apply Forall_cons in Hacc as [_ ?].
  - apply Forall_cons. split; [|done]. split; [naive_solver|done].
Qed.

(** Every path returned by [resolve] has a depth: the number of its
    segments. *)
Lemma posix_resolve_depth cwd args :
  ∃ n, depth_of Posix.dirname (Posix.resolve cwd args) n.
Proof.
  eexists. unfold Posix.resolve. apply depth_of_render.
  apply normalize_good, segments_no_slash.
Qed.

(** On the POSIX instance the loop of [getParentDirectories] returns for
    every start path and working directory. *)
Lemma getParentDirectories_posix_total cwd startPath :
  ∃ fuel paths,
    getParentDirectories (Posix.resolve cwd) Posix.dirname fuel startPath
    = Some paths.
Proof.
  destruct (posix_resolve_depth cwd [startPath]) as [n Hn].
  exists (S n), (ancestors Posix.dirname n (Posix.resolve cwd [startPath])).
  apply getParentDirectories_ancestors; [done|lia].
Qed.

(** What holds of [getParentDirectories] for every path: it returns once
    the fuel exceeds the depth [n] of the resolved path; the list has
    [n + 1] entries without equal neighbours; it starts with the resolved
    path and ends with the root. *)
Lemma getParentDirectories_chain
    (path_resolve : list string → string) (path_dirname : string → string)
    (startPath : string) (n fuel : nat) :
  depth_of path_dirname (path_resolve [startPath]) n → n < fuel →
  ∃ paths root,
    getParentDirectories path_resolve path_dirname fuel startPath = Some paths
    ∧ length paths = S n
    ∧ no_adjacent_dup paths
    ∧ head paths = Some (path_resolve [startPath])
    ∧ last paths = Some root ∧ path_dirname root = root.
Proof.
  intros Hd Hfuel.
  destruct (last_ancestors _ _ _ Hd) as (root & Hlast & Hroot).
  exists (ancestors path_dirname n (path_resolve [startPath])), root.
  split; [by apply getParentDirectories_ancestors|].
  split; [apply length_ancestors|].
  split; [by apply no_adjacent_dup_ancestors|].
  split; [apply head_ancestors|]. done.
Qed.

(** C5 (defect of the code): the documentation of [getParentDirectories]
    promises the paths "in order from root to the given path (parents
    first)", but on [/a/b] the function returns the given path first and
    the root last. *)
Theorem getParentDirectories_leaf_first :
  getParentDirectories (Posix.resolve "/") Posix.dirname 3 "/a/b"
  = Some ["/a/b"; "/a"; "/"].
Proof. by vm_compute. Qed.

(** C6 (amended): once the fuel exceeds the depth of the start directory,
    [findEnvFilesUpwards] returns the existing candidates of the ancestor
    chain taken from the root to the start directory; a file of a directory
    nearer the root is listed before a file of a directory nearer the leaf,
    and within one directory the plain variant [<dir>/<fileName>] is listed
    before the variant [<dir>/.vscode/<fileName>]. *)
Theorem findEnvFilesUpwards_order
    (path_resolve : list string → string) (path_dirname : string → string)
    (path_join : list string → string) (fs_existsSync : string → bool)
    (start envFileName : string) (n fuel : nat) :
  depth_of path_dirname (path_resolve [start]) n → n < fuel →
  let chain := rev (ancestors path_dirname n (path_resolve [start])) in
  let found := found_in path_join fs_existsSync envFileName in
  ∃ result,
    findEnvFilesUpwards path_resolve path_dirname path_join fs_existsSync
      fuel start envFileName = Some result
    ∧ result = flat_map found chain
    ∧ (∀ i j d1 d2 f g,
         i < j → chain !! i = Some d1 → chain !! j = Some d2 →
         f ∈ found d1 → g ∈ found d2 → listed_before f g result)
    ∧ (∀ d,
         d ∈ chain →
         fs_existsSync (path_join [d; envFileName]) = true →
         fs_existsSync (path_join [d; ".vscode"; envFileName]) = true →
         listed_before (path_join [d; envFileName])
           (path_join [d; ".vscode"; envFileName]) result).
Proof.
  intros Hd Hfuel chain found. exists (flat_map found chain).
  split.
  { unfold findEnvFilesUpwards.
    rewrite (findEnvFilesUpwards_loop_found _ _ _ _ _ n) by done.
    by rewrite app_nil_r. }
  split; [done|]. split.
  - intros i j d1 d2 f g. apply flat_map_listed_before.
  - intros d Hin Hplain Hvscode.
    apply list_elem_of_split in Hin as (a & b & ->).
    rewrite flat_map_app. simpl.
    unfold found at 2, found_in. rewrite !filter_cons, filter_nil.
    rewrite !decide_True by done. simpl.
    apply (listed_before_split _ _ _ []).
Qed.

Lemma findEnvFilesUpwards_order_witness :
  depth_of Posix.dirname (Posix.resolve "/" ["/proj"]) 1 ∧ 1 < 5 ∧
  findEnvFilesUpwards (Posix.resolve "/") Posix.dirname Posix.join
    (Sample.existsSync Sample.files) 5 "/proj" ".env"
  = Some ["/.env"; "/proj/.env"; "/proj/.vscode/.env"].
Proof.
  assert (depth_of Posix.dirname (Posix.resolve "/" ["/proj"]) 1) as Hd.
  { apply depth_step; [by vm_compute|]. apply depth_root. by vm_compute. }
  split; [exact Hd|]. split; [lia|].
  destruct (findEnvFilesUpwards_order (Posix.resolve "/") Posix.dirname
              Posix.join (Sample.existsSync Sample.files) "/proj" ".env" 1 5
              Hd ltac:(lia)) as (result & Hres & Heq & _).
  rewrite Hres, Heq. by vm_compute.
Defined.

(** C6, as stated, fails: with both variants present in [/proj], the
    variant under [.vscode] is not listed before the plain one. *)
Lemma findEnvFilesUpwards_vscode_not_first :
  findEnvFilesUpwards (Posix.resolve "/") Posix.dirname Posix.join
    (Sample.existsSync Sample.files) 5 "/proj" ".env"
  = Some ["/.env"; "/proj/.env"; "/proj/.vscode/.env"]
  ∧ ¬ listed_before "/proj/.vscode/.env" "/proj/.env"
        ["/.env"; "/proj/.env"; "/proj/.vscode/.env"].
Proof.
  split; [by vm_compute|].
  intros (i & j & Hij & Hi & Hj).
  destruct i as [|[|[|i]]]; simpl in Hi; try discriminate.
  destruct j as [|[|[|j]]]; simpl in Hj; try discriminate; lia.
Qed.

(** ** expandVariables *)

Lemma snapshot_of_remember env0 s env key :
  snapshot_of env0 s env →
  snapshot_of env0 (rememberOriginal env key s) env
  ∧ ∀ k, k ∈ (rememberOriginal env key s).1 ↔ k = key ∨ k ∈ s.1.
Proof.
  destruct s as [touched originals]. intros [Hsaved Hframe].
  unfold rememberOriginal. case_decide as Hin; simpl in *.
  - split; [done|]. set_solver.
  - split; [split|set_solver].
    + intros k Hk. simpl in Hk.
      apply elem_of_union in Hk as [->%elem_of_singleton|Hk]; simpl.
      * rewrite lookup_insert_eq. f_equal. by apply Hframe.
      * rewrite lookup_insert_ne by set_solver. by apply Hsaved.
    + intros k Hk. apply Hframe. set_solver.
Qed.

Lemma snapshot_of_write env0 s env key value :
  snapshot_of env0 s env → key ∈ s.1 →
  snapshot_of env0 s (<[key := value]> env).
Proof.
  intros [Hsaved Hframe] Hin. split; [done|].
  intros k Hk. rewrite lookup_insert_ne by set_solver. by apply Hframe.
Qed.

(** The first loop: the keys of the base map are remembered and then
    overwritten. *)
Lemma expose_base_spec env0 s0 env baseEnv :
  snapshot_of env0 s0 env →
  let st := expose_base baseEnv (s0, env) in
  snapshot_of env0 st.1 st.2
  ∧ (∀ k, k ∈ st.1.1 ↔ k ∈ s0.1 ∨ k ∈ dom baseEnv)
  ∧ (∀ k, st.2 !! k = match baseEnv !! k with
                       | Some v => Some v
                       | None => env !! k
                       end).
Proof.
  intros H0. unfold expose_base.
  apply (map_fold_weak_ind (λ st m,
    snapshot_of env0 st.1 st.2
    ∧ (∀ k, k ∈ st.1.1 ↔ k ∈ s0.1 ∨ k ∈ dom m)
    ∧ (∀ k, st.2 !! k = match m !! k with
                         | Some v => Some v
                         | None => env !! k
                         end))).
  - split; [done|]. split; [set_solver|]. intros k. by rewrite lookup_empty.
  - intros key value m [s e] Hfresh (Hok & Hdom & Hlook). simpl in *.
    destruct (snapshot_of_remember env0 s e key Hok) as [Hok' Hmem].
    split; [|split].
    + apply snapshot_of_write; [done|]. apply Hmem. by left.
    + intros k. rewrite Hmem, Hdom, dom_insert. set_solver.
    + intros k. destruct (decide (key = k)) as [->|Hne].
      * by rewrite !lookup_insert_eq.
      * rewrite !lookup_insert_ne by done. apply Hlook.
Qed.

(** The second loop: the keys of the map to expand are remembered. *)
Lemma remember_parsed_spec env0 s0 env parsed :
  snapshot_of env0 s0 env →
  let s := remember_parsed parsed env s0 in
  snapshot_of env0 s env ∧ (∀ k, k ∈ s.1 ↔ k ∈ s0.1 ∨ k ∈ dom parsed).
Proof.
  intros H0. unfold remember_parsed.
  apply (map_fold_weak_ind (λ s m,
    snapshot_of env0 s env ∧ (∀ k, k ∈ s.1 ↔ k ∈ s0.1 ∨ k ∈ dom m))).
  - split; [done|]. set_solver.
  - intros key value m s Hfresh (Hok & Hdom).
    destruct (snapshot_of_remember env0 s env key Hok) as [Hok' Hmem].
    split; [done|]. intros k. rewrite Hmem, Hdom, dom_insert. set_solver.
Qed.

(** The last loop: a touched key gets back what was remembered for it, an
    absent value by deletion; the other keys are left alone. *)
Lemma restore_lookup (s : Snapshot) env k :
  (k ∈ s.1 → restore s env !! k = mjoin (s.2 !! k))
  ∧ (k ∉ s.1 → restore s env !! k = env !! k).
Proof.
  unfold restore. destruct s as [touched originals]. simpl.
  apply (set_fold_ind_L (λ r (X : gset string),
    (k ∈ X → r !! k = mjoin (originals !! k))
    ∧ (k ∉ X → r !! k = env !! k))).
  - split; [set_solver|done].
  - intros key X r Hfresh [IHin IHout].
    destruct (decide (key = k)) as [->|Hne].
    + split; [intros _|set_solver].
      destruct (originals !! k) as [[previous|]|]; simpl.
      * by rewrite lookup_insert_eq.
      * by rewrite lookup_delete_eq.
      * by rewrite lookup_delete_eq.
    + assert ((match originals !! key with
               | Some (Some previous) => <[key := previous]> r
               | _ => delete key r
               end) !! k = r !! k) as ->.
      { destruct (originals !! key) as [[previous|]|];
          by rewrite ?lookup_insert_ne, ?lookup_delete_ne by done. }
      split; intros Hk; [apply IHin|apply IHout]; set_solver.
Qed.

Lemma restore_snapshot env0 s env env' k :
  snapshot_of env0 s env →
  restore s env' !! k = if decide (k ∈ s.1) then env0 !! k else env' !! k.
Proof.
  intros [Hsaved _]. destruct (restore_lookup s env' k) as [Hin Hout].
  case_decide as Hk; [|by apply Hout].
  by rewrite Hin, Hsaved.
Qed.

Section ExpandFacts.

Variable dotenvExpand_expand : Expander.

(** The environment handed to the expander, and the state after a normal
    return of the expander. *)
Lemma expandVariables_unfold map baseEnv w :
  map ≠ ∅ →
  ∃ (s : Snapshot) env1,
    snapshot_of (process_env w) s env1
    ∧ (∀ k, k ∈ s.1 ↔ k ∈ dom baseEnv ∨ k ∈ dom map)
    ∧ (∀ k, env1 !! k = match baseEnv !! k with
                         | Some v => Some v
                         | None => process_env w !! k
                         end)
    ∧ expandVariables dotenvExpand_expand map baseEnv w
      = match dotenvExpand_expand map env1 with
        | (Throw err, env) => (Thrown err, set_process_env env w)
        | (Normal expansion_parsed, env) =>
            (Returned (default ∅ expansion_parsed),
             set_process_env (restore s env) w)
        end.
Proof.
  intros Hne.
  assert (snapshot_of (process_env w) ((∅, ∅) : Snapshot) (process_env w))
    as H0 by (split; [set_solver|done]).
  destruct (expose_base_spec _ _ _ baseEnv H0) as (Hok1 & Hdom1 & Hlook1).
  destruct (remember_parsed_spec _ _ _ map Hok1) as (Hok2 & Hdom2).
  eexists _, _. split; [exact Hok2|]. split; [|split; [exact Hlook1|]].
  - intros k. rewrite Hdom2, Hdom1. set_solver.
  - unfold expandVariables. by rewrite decide_False by done.
Qed.

Lemma expandVariables_touched_restored map baseEnv w r w' k :
  expandVariables dotenvExpand_expand map baseEnv w = (Returned r, w') →
  k ∈ dom baseEnv ∪ dom map →
  process_env w' !! k = process_env w !! k.
Proof.
  intros Hrun Hk. destruct (decide (map = ∅)) as [->|Hne].
  { unfold expandVariables in Hrun. rewrite decide_True in Hrun by done.
    by simplify_eq. }
  destruct (expandVariables_unfold map baseEnv w Hne)
    as (s & env1 & Hok & Hdom & _ & Heq).
  rewrite Heq in Hrun.
  destruct (dotenvExpand_expand map env1) as [[expansion|err] env];
    simplify_eq. simpl.
  rewrite (restore_snapshot _ _ _ _ _ Hok).
  rewrite decide_True; [done|]. apply Hdom. set_solver.
Qed.

Lemma expandVariables_env_unchanged map baseEnv w r w' :
  writes_only_parsed dotenvExpand_expand →
  expandVariables dotenvExpand_expand map baseEnv w = (Returned r, w') →
  w' = w.
Proof.
  intros Hframe Hrun. destruct (decide (map = ∅)) as [->|Hne].
  { unfold expandVariables in Hrun. rewrite decide_True in Hrun by done.
    by simplify_eq. }
  destruct (expandVariables_unfold map baseEnv w Hne)
    as (s & env1 & Hok & Hdom & Hlook & Heq).
  rewrite Heq in Hrun. specialize (Hframe map env1).
  destruct (dotenvExpand_expand map env1) as [[expansion|err] env];
    simplify_eq. simpl in *.
  destruct w as [env0 coll log]. unfold set_process_env. simpl in *. f_equal.
  apply map_eq. intros k. rewrite (restore_snapshot _ _ _ _ _ Hok).
  case_decide as Hin; [done|].
  rewrite Hframe, Hlook.
  - destruct (baseEnv !! k) eqn:Hb; [|done].
    exfalso. apply Hin, Hdom. left. by apply elem_of_dom.
  - apply not_elem_of_dom. intros ?. apply Hin, Hdom. by right.
Qed.

End ExpandFacts.

(** C4 (amended): when the underlying expansion returns normally,
    [expandVariables] leaves every entry of [process.env] it touched, that
    is every key of the base map and of the map to expand, at its prior
    value, a key that was absent being absent again; if moreover the
    expander writes only the keys it was given, the whole state is as
    before the call. *)
Theorem expandVariables_restores_on_return
    (dotenvExpand_expand : Expander) (map baseEnv : EnvMap)
    (w w' : World) (r : EnvMap) :
  expandVariables dotenvExpand_expand map baseEnv w = (Returned r, w') →
  (∀ k, k ∈ dom baseEnv ∪ dom map →
        process_env w' !! k = process_env w !! k)
  ∧ (writes_only_parsed dotenvExpand_expand → w' = w).
Proof.
  intros Hrun. split.
  - intros k Hk. by eapply expandVariables_touched_restored.
  - intros Hframe. by eapply expandVariables_env_unchanged.
Qed.

Lemma expandVariables_restores_on_return_witness :
  let w := set_process_env {[ "HOST" := "localhost" ]} Sample.empty_world in
  let map : EnvMap := {[ "URL" := "https://example.com/api" ]} in
  let baseEnv : EnvMap := {[ "HOST" := "example.com" ]} in
  ∃ r w',
    expandVariables Sample.expand_copy map baseEnv w = (Returned r, w')
    ∧ process_env w' !! "HOST" = Some "localhost"
    ∧ process_env w' !! "URL" = None.
Proof.
  intros w map baseEnv.
  destruct (expandVariables Sample.expand_copy map baseEnv w) as [o w']
    eqn:Hrun.
  assert (o = Returned map) as -> by (by vm_compute in Hrun; simplify_eq).
  exists map, w'. split; [done|].
  destruct (expandVariables_restores_on_return
              Sample.expand_copy map baseEnv w w' map Hrun) as [Hkeys _].
  split.
  - rewrite (Hkeys "HOST"); [by vm_compute|]. by vm_compute.
  - rewrite (Hkeys "URL"); [by vm_compute|]. by vm_compute.
Defined.

(** C4, as stated, fails on the exception path: the base entry written
    before the expansion is still in [process.env] after the throw. *)
Lemma expandVariables_throw_not_restored :
  ∃ err w',
    expandVariables Sample.expand_throw
      {[ "URL" := "https://${HOST}/api" ]} {[ "HOST" := "example.com" ]}
      Sample.empty_world = (Thrown err, w')
    ∧ process_env Sample.empty_world !! "HOST" = None
    ∧ process_env w' !! "HOST" = Some "example.com".
Proof. eexists _, _. split; [by vm_compute|]. split; by vm_compute. Qed.

(** ** parseEnvFiles *)

Lemma assign_entries_lookup (merged parsed : EnvMap) k :
  assign_entries merged parsed !! k
  = match parsed !! k with Some v => Some v | None => merged !! k end.
Proof.
  unfold assign_entries.
  apply (map_fold_weak_ind (λ (r : EnvMap) (m : EnvMap),
    r !! k = match m !! k with Some v => Some v | None => merged !! k end)).
  - by rewrite lookup_empty.
  - intros key value m r Hfresh IH. destruct (decide (key = k)) as [->|Hne].
    + by rewrite !lookup_insert_eq.
    + by rewrite !lookup_insert_ne.
Qed.

Lemma merge_keeps_undefined (after : list EnvMap) (merged : EnvMap) K :
  (∀ L, L ∈ after → L !! K = None) →
  foldl assign_entries merged after !! K = merged !! K.
Proof.
  revert merged. induction after as [|L after IH]; intros merged Hnone;
    simpl; [done|].
  rewrite IH by (intros; apply Hnone; set_solver).
  rewrite assign_entries_lookup, Hnone; [done|set_solver].
Qed.

Lemma merge_last_wins (before after : list EnvMap) (L : EnvMap) K v :
  L !! K = Some v → (∀ L', L' ∈ after → L' !! K = None) →
  foldl assign_entries ∅ (before ++ L :: after) !! K = Some v.
Proof.
  intros HL Hnone. rewrite foldl_app. simpl.
  rewrite merge_keeps_undefined by done.
  by rewrite assign_entries_lookup, HL.
Qed.

Section ParseFacts.

Variable fs_readFileSync : string → completion string.
Variable dotenv_parse : string → completion EnvMap.

Local Abbreviation load_file := (load fs_readFileSync dotenv_parse).
Local Abbreviation step :=
  (parseEnvFiles_step fs_readFileSync dotenv_parse).
Local Abbreviation loop :=
  (parseEnvFiles_loop fs_readFileSync dotenv_parse).

Lemma parseEnvFiles_steps paths (acc : EnvMap * list string) :
  foldl step acc paths
  = (foldl assign_entries acc.1 (layers load_file paths),
     acc.2 ++ failures load_file paths).
Proof.
  revert acc. induction paths as [|p paths IH]; intros [merged log]; simpl.
  { by rewrite app_nil_r. }
  rewrite IH. unfold parseEnvFiles_step.
  destruct (load_file p) as [parsed|err]; simpl; [done|].
  by rewrite <-app_assoc.
Qed.

Lemma parseEnvFiles_loop_layers paths :
  loop paths
  = (foldl assign_entries ∅ (layers load_file paths), failures load_file paths).
Proof. unfold parseEnvFiles_loop. by rewrite parseEnvFiles_steps. Qed.

End ParseFacts.

(** [parseEnvFiles] logs the failures and expands the merge of the layers. *)
Lemma parseEnvFiles_run
    (fs_readFileSync : string → completion string)
    (dotenv_parse : string → completion EnvMap)
    (dotenvExpand_expand : Expander)
    (paths : list string) (expansionBase : EnvMap) (w : World) :
  parseEnvFiles fs_readFileSync dotenv_parse dotenvExpand_expand
    paths expansionBase w
  = expandVariables dotenvExpand_expand
      (foldl assign_entries ∅
         (layers (load fs_readFileSync dotenv_parse) paths))
      expansionBase
      (log_errors (failures (load fs_readFileSync dotenv_parse) paths) w).
Proof.
  unfold parseEnvFiles, mbind, M_bind, bind, modify.
  rewrite parseEnvFiles_loop_layers. simpl.
  by destruct (expandVariables _ _ _ _) as [[]].
Qed.

(** C1: in the map merged by the loop of [parseEnvFiles], a key has the
    value given by the latest layer that defines it, the layers being the
    parsed maps in the order of the paths (root first); in particular, of
    two layers [L1] and [L2] that both define [K], the value of [L2]
    wins. *)
Theorem parseEnvFiles_last_layer_wins
    (fs_readFileSync : string → completion string)
    (dotenv_parse : string → completion EnvMap) (paths : list string) :
  let merged := (parseEnvFiles_loop fs_readFileSync dotenv_parse paths).1 in
  let ls := layers (load fs_readFileSync dotenv_parse) paths in
  (∀ before L after K v,
     ls = before ++ L :: after → L !! K = Some v →
     (∀ L', L' ∈ after → L' !! K = None) →
     merged !! K = Some v)
  ∧ (∀ L1 L2 K,
       ls = [L1; L2] → is_Some (L1 !! K) → is_Some (L2 !! K) →
       merged !! K = L2 !! K).
Proof.
  intros merged ls. subst merged ls. rewrite parseEnvFiles_loop_layers. simpl.
  split.
  - intros before L after K v -> HL Hnone. by apply merge_last_wins.
  - intros L1 L2 K -> _ [v HL]. rewrite HL.
    apply (merge_last_wins [L1] []); [done|]. set_solver.
Qed.

Lemma parseEnvFiles_last_layer_wins_witness :
  let read := Sample.readFileSync Sample.files in
  layers (load read Sample.parse) ["/.env"; "/proj/.env"]
  = [ {[ "A" := "1" ]}; {[ "A" := "2"; "B" := "3" ]} ]
  ∧ (parseEnvFiles_loop read Sample.parse ["/.env"; "/proj/.env"]).1 !! "A"
    = Some "2".
Proof.
  intros read.
  assert (layers (load read Sample.parse) ["/.env"; "/proj/.env"]
          = [ {[ "A" := "1" ]}; {[ "A" := "2"; "B" := "3" ]} ]) as Hls
    by (by vm_compute).
  split; [exact Hls|].
  destruct (parseEnvFiles_last_layer_wins read Sample.parse
              ["/.env"; "/proj/.env"]) as [_ Hlast].
  rewrite (Hlast _ _ "A" Hls); [by vm_compute| |]; eexists; by vm_compute.
Defined.



(** ** filterEnvByAllowed *)

Lemma filter_fold_lookup (env out : EnvMap) (ks : list string) k :
  foldl (λ out k, match env !! k with
                  | Some v => <[k := v]> out
                  | None => out
                  end) out ks !! k
  = if decide (k ∈ ks)
    then match env !! k with Some v => Some v | None => out !! k end
    else out !! k.
Proof.
  revert out. induction ks as [|a ks IH]; intros out; cbn [foldl].
  { case_decide; [set_solver|done]. }
  rewrite IH. destruct (decide (a = k)) as [->|Hne].
  - destruct (decide (k ∈ k :: ks)); [|set_solver].
    destruct (env !! k) as [v|] eqn:Hk.
    + rewrite lookup_insert_eq. by case_decide.
    + by case_decide.
  - assert ((match env !! a with
             | Some v => <[a := v]> out
             | None => out
             end) !! k = out !! k) as ->.
    { destruct (env !! a); by rewrite ?lookup_insert_ne. }
    repeat case_decide; set_solver.
Qed.


(** The example of the specification: the filter [{"A"}] on
    [{"A":"1","B":"2"}] yields exactly [{"A":"1"}]. *)
Example filterEnvByAllowed_example :
  filterEnvByAllowed {[ "A" := "1"; "B" := "2" ]} (Some ["A"])
  = {[ "A" := "1" ]}.
Proof. by vm_compute. Qed.

(** ** resolveEnvironments and getConfiguredEnvironment *)

Section ResolveFacts.

Variable path_resolve : list string → string.
Variable settings : Configuration.

Local Abbreviation pathResolves := (default ∅ (cfg_pathResolves settings)).

(** The path computed for a key of [pathResolves]. *)
Local Abbreviation resolved_path folder variables key value :=
  (path_resolve
     [ JS.or_ value (vscode.fsPath folder);
       JS.or_ (JS.nullish (variables !! key) "") value ]).

Lemma resolveEnvironments_spec folder (variables : EnvMap) w :
  ∃ resolved env,
    resolveEnvironments path_resolve settings folder variables w
    = (Returned resolved, set_process_env env w)
    ∧ (∀ k, resolved !! k
            = match pathResolves !! k with
              | Some value => Some (resolved_path folder variables k value)
              | None => variables !! k
              end)
    ∧ (∀ k, env !! k
            = match pathResolves !! k with
              | Some value => Some (resolved_path folder variables k value)
              | None => process_env w !! k
              end).
Proof.
  unfold resolveEnvironments. eexists _, _. split; [reflexivity|].
  apply (map_fold_weak_ind (λ (st : EnvMap * gmap string string) m,
    (∀ k, st.1 !! k
          = match m !! k with
            | Some value => Some (resolved_path folder variables k value)
            | None => variables !! k
            end)
    ∧ (∀ k, st.2 !! k
            = match m !! k with
              | Some value => Some (resolved_path folder variables k value)
              | None => process_env w !! k
              end))).
  - split; intros k; by rewrite lookup_empty.
  - intros key value m [resolved env] Hfresh [IH1 IH2]. simpl in *.
    assert (resolved !! key = variables !! key) as Hkey
      by (by rewrite IH1, Hfresh).
    split; intros k; (destruct (decide (key = k)) as [<-|Hne];
      [rewrite !lookup_insert_eq; by rewrite Hkey
      |rewrite !lookup_insert_ne by done; auto]).
Qed.

Lemma resolveEnvironments_env folder (variables : EnvMap) w r w' :
  resolveEnvironments path_resolve settings folder variables w
  = (Returned r, w') →
  (∀ k, process_env w' !! k
        = match pathResolves !! k with
          | Some _ => r !! k
          | None => process_env w !! k
          end)
  ∧ (∀ k, is_Some (pathResolves !! k) → is_Some (r !! k))
  ∧ environmentVariableCollection w' = environmentVariableCollection w
  ∧ console_error w' = console_error w.
Proof.
  destruct (resolveEnvironments_spec folder variables w)
    as (resolved & env & -> & Hres & Henv).
  intros [= <- <-]. split; [|split; [|done]].
  - intros k. simpl. rewrite Henv, Hres. by destruct (pathResolves !! k).
  - intros k [value Hk]. rewrite Hres, Hk. by eexists.
Qed.

End ResolveFacts.

Section ConfiguredFacts.

Variable path_resolve : list string → string.
Variable path_dirname : string → string.
Variable path_join : list string → string.
Variable fs_existsSync : string → bool.
Variable fs_readFileSync : string → completion string.
Variable dotenv_parse : string → completion EnvMap.
Variable dotenvExpand_expand : Expander.
Variable settings : Configuration.
Variable workspaceState : gmap string (list string).

Hypothesis expand_frame : writes_only_parsed dotenvExpand_expand.

Lemma readEnvFiles_world fuel folder envFileName expansionBase w r w' :
  readEnvFiles path_resolve path_dirname path_join fs_existsSync
    fs_readFileSync dotenv_parse dotenvExpand_expand
    fuel folder envFileName expansionBase w = (Returned r, w') →
  process_env w' = process_env w
  ∧ environmentVariableCollection w' = environmentVariableCollection w.
Proof.
  unfold readEnvFiles.
  destruct (findEnvFilesUpwards _ _ _ _ _ _ _) as [[|p envPaths]|];
    [by intros [= <- <-]| |done].
  unfold mbind, M_bind, bind. rewrite parseEnvFiles_run.
  destruct (expandVariables _ _ _ _) as [[env| |] w1] eqn:Hrun; try done.
  intros [= <- <-].
  by rewrite (expandVariables_env_unchanged _ _ _ _ _ _ expand_frame Hrun).
Qed.

Lemma getConfiguredEnvironment_world fuel folder w ce w' :
  getConfiguredEnvironment path_resolve path_dirname path_join
    fs_existsSync fs_readFileSync dotenv_parse dotenvExpand_expand
    settings workspaceState fuel folder w = (Returned ce, w') →
  (∀ k, process_env w' !! k
        = match default ∅ (cfg_pathResolves settings) !! k with
          | Some _ => combined ce !! k
          | None => process_env w !! k
          end)
  ∧ (∀ k, is_Some (default ∅ (cfg_pathResolves settings) !! k) →
          is_Some (combined ce !! k))
  ∧ environmentVariableCollection w' = environmentVariableCollection w
  ∧ config ce = settings.
Proof.
  unfold getConfiguredEnvironment, mbind, M_bind, bind, mret, M_ret, ret.
  destruct (resolveEnvironments _ _ _ _ w) as [[r1| |] w1] eqn:H1; try done.
  destruct (readEnvFiles _ _ _ _ _ _ _ _ _ _ _ w1) as [[r2| |] w2] eqn:H2;
    try done.
  destruct (resolveEnvironments _ _ _ _ w2) as [[r3| |] w3] eqn:H3; try done.
  destruct (expandVariables _ _ _ w3) as [[r4| |] w4] eqn:H4; try done.
  intros [= <- <-]. simpl.
  apply resolveEnvironments_env in H1 as (Henv1 & _ & Hc1 & _).
  apply readEnvFiles_world in H2 as (Henv2 & Hc2).
  apply resolveEnvironments_env in H3 as (Henv3 & Hsome3 & Hc3 & _).
  apply (expandVariables_env_unchanged _ _ _ _ _ _ expand_frame) in H4
    as ->.
  split; [|split; [done|split; [congruence|done]]].
  intros k. rewrite Henv3, Henv2, Henv1.
  by destruct (default ∅ (cfg_pathResolves settings) !! k).
Qed.

End ConfiguredFacts.

Lemma expand_copy_writes_only_parsed : writes_only_parsed Sample.expand_copy.
Proof. intros parsed env k Hk. simpl. by apply lookup_union_r. Qed.

(** C9 (amended): [getConfiguredEnvironment] is a function of the folder,
    the file system, the settings, the allow-list and the state at the
    call; provided the expander writes only the keys it is given, a call
    that returns leaves [process.env] as it was except at the keys of the
    [pathResolves] setting, each of which is left set to its resolved path
    (the value in [combined]); it leaves [process.env] unchanged when
    [pathResolves] is empty, and never changes the collection. *)
Theorem getConfiguredEnvironment_process_env
    (path_resolve : list string → string) (path_dirname : string → string)
    (path_join : list string → string) (fs_existsSync : string → bool)
    (fs_readFileSync : string → completion string)
    (dotenv_parse : string → completion EnvMap)
    (dotenvExpand_expand : Expander)
    (settings : Configuration) (workspaceState : gmap string (list string))
    (fuel : nat) (folder : vscode.WorkspaceFolder)
    (w w' : World) (ce : ConfiguredEnvironment) :
  writes_only_parsed dotenvExpand_expand →
  getConfiguredEnvironment path_resolve path_dirname path_join
    fs_existsSync fs_readFileSync dotenv_parse dotenvExpand_expand
    settings workspaceState fuel folder w = (Returned ce, w') →
  let pathResolves := default ∅ (cfg_pathResolves settings) in
  (∀ k, pathResolves !! k = None →
        process_env w' !! k = process_env w !! k)
  ∧ (∀ k, is_Some (pathResolves !! k) →
          is_Some (combined ce !! k)
          ∧ process_env w' !! k = combined ce !! k)
  ∧ (pathResolves = ∅ → process_env w' = process_env w)
  ∧ environmentVariableCollection w' = environmentVariableCollection w.
Proof.
  intros Hframe Hrun pathResolves.
  destruct (getConfiguredEnvironment_world _ _ _ _ _ _ _ _ _ Hframe
              _ _ _ _ _ Hrun) as (Henv & Hsome & Hcoll & _).
  fold pathResolves in Henv, Hsome.
  split; [|split; [|split; [|done]]].
  - intros k Hk. by rewrite Henv, Hk.
  - intros k Hk. split; [by apply Hsome|].
    rewrite Henv. by destruct Hk as [v ->].
  - intros Hempty. apply map_eq. intros k.
    by rewrite Henv, Hempty, lookup_empty.
Qed.

Lemma getConfiguredEnvironment_process_env_witness :
  let run :=
    getConfiguredEnvironment (Posix.resolve "/") Posix.dirname Posix.join
      (Sample.existsSync Sample.files) (Sample.readFileSync Sample.files)
      Sample.parse Sample.expand_copy Sample.data_settings ∅
      5 (Sample.folder "/proj") Sample.fresh_world in
  writes_only_parsed Sample.expand_copy
  ∧ (∃ ce, run.1 = Returned ce)
  ∧ process_env run.2 !! "PATH" = Some "/usr/bin"
  ∧ is_Some (process_env run.2 !! "DATA_DIR").
Proof.
  intros run.
  assert (∃ ce, run.1 = Returned ce) as [ce Hce]
    by (eexists; vm_compute; reflexivity).
  assert (run = (Returned ce, run.2)) as Hrun
    by (rewrite <-Hce; apply surjective_pairing).
  destruct (getConfiguredEnvironment_process_env _ _ _ _ _ _ _ _ _ _ _ _ _ _
              expand_copy_writes_only_parsed Hrun)
    as (Hframe & Hset & _ & _).
  split; [exact expand_copy_writes_only_parsed|]. split; [by exists ce|].
  split.
  - etransitivity; [apply Hframe|]; vm_compute; reflexivity.
  - destruct (Hset "DATA_DIR") as [Hsome Heq].
    + vm_compute. eexists. reflexivity.
    + rewrite Heq. exact Hsome.
Defined.

(** C9, as stated, fails: with [DATA_DIR] in [pathResolves], the call
    returns and [process.env] has gained [DATA_DIR]. *)
Lemma getConfiguredEnvironment_sets_pathResolves :
  let run :=
    getConfiguredEnvironment (Posix.resolve "/") Posix.dirname Posix.join
      (Sample.existsSync ∅) (Sample.readFileSync ∅)
      Sample.parse Sample.expand_copy Sample.data_settings ∅
      5 (Sample.folder "/proj") Sample.empty_world in
  (∃ ce, run.1 = Returned ce)
  ∧ process_env Sample.empty_world !! "DATA_DIR" = None
  ∧ process_env run.2 !! "DATA_DIR" = Some "/proj/data".
Proof.
  intros run. split; [eexists; vm_compute; reflexivity|].
  split; vm_compute; reflexivity.
Qed.

(** ** The loop of updateEnvironmentVariableCollection *)











Section ReconcileFacts.

Variable platform : string.
Variable mergeStrategies : MergeStrategies.

Local Abbreviation mutator w k v :=
  (stored_mutator platform (default Replace (mergeStrategies !! k%string))
     (JS.nullish (collection_value k%string w) "") v).

Lemma ensure_entry_spec key value ensured w :
  ensure_entry platform mergeStrategies key value (ensured, w)
  = (<[key := vscode.mvalue (mutator w key value)]> ensured,
     {| process_env :=
          <[key := vscode.mvalue (mutator w key value)]> (process_env w);
        environmentVariableCollection :=
          <[key := mutator w key value]> (environmentVariableCollection w);
        console_error := console_error w |}).
Proof.
  unfold ensure_entry, stored_mutator, stored_value, mutator_type,
    collection_value, vscode.get, set_collection, set_process_env. simpl.
  destruct (default Replace (mergeStrategies !! key)); simpl;
    unfold vscode.replace, vscode.prepend, vscode.append;
    by rewrite lookup_insert_eq.
Qed.

(** Every iteration works on the entry of its own key: after the loop, a
    key of [filtered] holds the mutator computed from the state before
    the loop, and the other keys are as before. *)
Lemma apply_strategies_spec (filtered ensured : EnvMap) w :
  let st := apply_strategies platform mergeStrategies filtered (ensured, w) in
  (∀ k, st.1 !! k = match filtered !! k with
                     | Some v => Some (vscode.mvalue (mutator w k v))
                     | None => ensured !! k
                     end)
  ∧ (∀ k, process_env st.2 !! k
          = match filtered !! k with
            | Some v => Some (vscode.mvalue (mutator w k v))
            | None => process_env w !! k
            end)
  ∧ (∀ k, environmentVariableCollection st.2 !! k
          = match filtered !! k with
            | Some v => Some (mutator w k v)
            | None => environmentVariableCollection w !! k
            end)
  ∧ console_error st.2 = console_error w.
Proof.
  unfold apply_strategies.
  apply (map_fold_weak_ind (λ (st : EnvMap * World) (m : EnvMap),
    (∀ k, st.1 !! k = match m !! k with
                       | Some v => Some (vscode.mvalue (mutator w k v))
                       | None => ensured !! k
                       end)
    ∧ (∀ k, process_env st.2 !! k
            = match m !! k with
              | Some v => Some (vscode.mvalue (mutator w k v))
              | None => process_env w !! k
              end)
    ∧ (∀ k, environmentVariableCollection st.2 !! k
            = match m !! k with
              | Some v => Some (mutator w k v)
              | None => environmentVariableCollection w !! k
              end)
    ∧ console_error st.2 = console_error w)).
  - repeat split; try done; intros k; by rewrite lookup_empty.
  - intros key value m [ens w1] Hfresh (IH1 & IH2 & IH3 & IH4).
    rewrite ensure_entry_spec. simpl in *.
    assert (collection_value key w1 = collection_value key w) as ->.
    { unfold collection_value, vscode.get. by rewrite IH3, Hfresh. }
    repeat split; try done; intros k;
      (destruct (decide (key = k)) as [<-|Hne];
       [by rewrite !lookup_insert_eq
       |rewrite !lookup_insert_ne by done; auto]).
Qed.



End ReconcileFacts.







(** ** updateEnvironmentVariableCollection *)

Section UpdateFacts.

Variable path_resolve : list string → string.
Variable path_dirname : string → string.
Variable path_join : list string → string.
Variable fs_existsSync : string → bool.
Variable fs_readFileSync : string → completion string.
Variable dotenv_parse : string → completion EnvMap.
Variable dotenvExpand_expand : Expander.
Variable platform : string.
Variable settings : Configuration.
Variable workspaceState : gmap string (list string).

Lemma getConfiguredEnvironment_config fuel folder w ce w' :
  getConfiguredEnvironment path_resolve path_dirname path_join
    fs_existsSync fs_readFileSync dotenv_parse dotenvExpand_expand
    settings workspaceState fuel folder w = (Returned ce, w') →
  config ce = settings.
Proof.
  unfold getConfiguredEnvironment, mbind, M_bind, bind, mret, M_ret, ret.
  destruct (resolveEnvironments _ _ _ _ w) as [[r1| |] w1]; try done.
  destruct (readEnvFiles _ _ _ _ _ _ _ _ _ _ _ w1) as [[r2| |] w2];
    try done.
  destruct (resolveEnvironments _ _ _ _ w2) as [[r3| |] w3]; try done.
  destruct (expandVariables _ _ _ w3) as [[r4| |] w4]; try done.
  by intros [= <- <-].
Qed.

Lemma prepend_cwd_components_spec fuel folder directories
    (st : EnvMap * World) :
  getParentDirectories path_resolve path_dirname fuel (vscode.fsPath folder)
  = Some directories →
  let prependString :=
    JS.join (pathSeparator platform) directories
    +:+ pathSeparator platform in
  ∃ st',
    prepend_cwd_components path_resolve path_dirname platform fuel folder st
    = Some st'
    ∧ st'.1 !! "PATH" = Some prependString
    ∧ process_env st'.2 !! "PATH" = Some prependString
    ∧ environmentVariableCollection st'.2 !! "PATH"
      = Some {| vscode.mtype := vscode.MPrepend;
                vscode.mvalue := prependString;
                vscode.moptions := vscode.default_options |}.
Proof.
  intros Hdirs prependString. unfold prepend_cwd_components.
  rewrite Hdirs. fold prependString.
  unfold collection_value, vscode.get, vscode.prepend, set_collection.
  simpl. rewrite lookup_insert_eq. simpl.
  eexists. split; [reflexivity|]. simpl. by rewrite !lookup_insert_eq.
Qed.

End UpdateFacts.

(** C10: when [prependCwdComponentsToPath] is enabled, which it is when
    the setting is absent, and the filtered map is not empty,
    [updateEnvironmentVariableCollection] ends by registering for [PATH]
    a prepend mutator whose value is the chain returned by
    [getParentDirectories] for the workspace folder, joined by the path
    separator and followed by one more separator; this is also the value
    of [PATH] in the returned map and in [process.env]. Nothing is assumed
    about [PATH] in the files, presets or strategies. *)
Theorem updateEnvironmentVariableCollection_prepends_chain
    (path_resolve : list string → string) (path_dirname : string → string)
    (path_join : list string → string) (fs_existsSync : string → bool)
    (fs_readFileSync : string → completion string)
    (dotenv_parse : string → completion EnvMap)
    (dotenvExpand_expand : Expander) (platform : string)
    (settings : Configuration) (workspaceState : gmap string (list string))
    (fuel n : nat) (folder : vscode.WorkspaceFolder)
    (w w1 : World) (ce : ConfiguredEnvironment) :
  getConfiguredEnvironment path_resolve path_dirname path_join
    fs_existsSync fs_readFileSync dotenv_parse dotenvExpand_expand
    settings workspaceState fuel folder w = (Returned ce, w1) →
  filtered ce ≠ ∅ →
  default true (cfg_prependCwdComponentsToPath settings) = true →
  depth_of path_dirname (path_resolve [vscode.fsPath folder]) n →
  n < fuel →
  let chain :=
    ancestors path_dirname n (path_resolve [vscode.fsPath folder]) in
  let prependString :=
    JS.join (pathSeparator platform) chain +:+ pathSeparator platform in
  ∃ ensured w',
    updateEnvironmentVariableCollection path_resolve path_dirname path_join
      fs_existsSync fs_readFileSync dotenv_parse dotenvExpand_expand
      platform settings workspaceState fuel (Some folder) w
    = (Returned ensured, w')
    ∧ environmentVariableCollection w' !! "PATH"
      = Some {| vscode.mtype := vscode.MPrepend;
                vscode.mvalue := prependString;
                vscode.moptions := vscode.default_options |}
    ∧ (∀ inherited,
         vscode.apply (environmentVariableCollection w' !! "PATH") inherited
         = Some (prependString +:+ default "" inherited))
    ∧ ensured !! "PATH" = Some prependString
    ∧ process_env w' !! "PATH" = Some prependString.
Proof.
  intros Hrun Hne Hflag Hdepth Hfuel chain prependString.
  pose proof (getConfiguredEnvironment_config _ _ _ _ _ _ _ _ _ _ _ _ _ _
                Hrun) as Hconfig.
  pose proof (getParentDirectories_ancestors path_resolve path_dirname
                _ _ _ Hdepth Hfuel) as Hdirs.
  unfold updateEnvironmentVariableCollection, mbind, M_bind, bind.
  rewrite Hrun. rewrite decide_False by done. rewrite Hconfig, Hflag.
  destruct (prepend_cwd_components_spec path_resolve path_dirname platform
              fuel folder _
              (apply_strategies platform
                 (default DEFAULT_MERGE_STRATEGIES
                    (cfg_mergeStrategies settings))
                 (filtered ce) (∅, w1)) Hdirs)
    as (st' & -> & Hens & Henv & Hcoll).
  exists st'.1, st'.2. split; [done|].
  split; [exact Hcoll|]. split; [|done].
  intros inherited. by rewrite Hcoll.
Qed.

Lemma updateEnvironmentVariableCollection_prepends_chain_witness :
  let run :=
    updateEnvironmentVariableCollection (Posix.resolve "/") Posix.dirname
      Posix.join (Sample.existsSync Sample.files)
      (Sample.readFileSync Sample.files) Sample.parse Sample.expand_copy
      "linux" Sample.no_settings ∅ 5 (Some (Sample.folder "/proj"))
      Sample.fresh_world in
  depth_of Posix.dirname (Posix.resolve "/" ["/proj"]) 1
  ∧ process_env run.2 !! "PATH" = Some "/proj:/:".
Proof.
  intros run.
  assert (depth_of Posix.dirname (Posix.resolve "/" ["/proj"]) 1) as Hd.
  { apply depth_step; [by vm_compute|]. apply depth_root. by vm_compute. }
  split; [exact Hd|].
  set (configured :=
    getConfiguredEnvironment (Posix.resolve "/") Posix.dirname Posix.join
      (Sample.existsSync Sample.files) (Sample.readFileSync Sample.files)
      Sample.parse Sample.expand_copy Sample.no_settings ∅
      5 (Sample.folder "/proj") Sample.fresh_world).
  assert (∃ ce, configured.1 = Returned ce ∧ filtered ce !! "A" = Some "2")
    as (ce & Hce & HA) by (eexists; vm_compute; split; reflexivity).
  assert (configured = (Returned ce, configured.2)) as Hrun
    by (rewrite <-Hce; apply surjective_pairing).
  assert (filtered ce ≠ ∅) as Hne.
  { intros Hempty. rewrite Hempty, lookup_empty in HA. discriminate. }
  destruct (updateEnvironmentVariableCollection_prepends_chain
              _ _ _ _ _ _ _ "linux" _ _ _ 1 _ _ _ _ Hrun Hne eq_refl Hd
              ltac:(lia))
    as (ensured & w' & Hupdate & _ & _ & _ & Henv).
  fold run in Hupdate. rewrite Hupdate. simpl.
  etransitivity; [exact Henv|]. vm_compute. reflexivity.
Defined.

(** * Further properties of the code *)

(** ** Directory chain and file discovery *)

Lemma ancestors_lookup (path_dirname : string → string) p n :
  depth_of path_dirname p n →
  ∀ i q, ancestors path_dirname n p !! i = Some q →
    (i < n → path_dirname q ≠ q
             ∧ ancestors path_dirname n p !! S i = Some (path_dirname q))
    ∧ (i = n → path_dirname q = q).
Proof.
  induction 1 as [p Hp|p n Hp Hd IH]; intros i q Hq.
  - destruct i as [|i]; simpl in Hq; [|done]. simplify_eq.
    split; [lia|done].
  - change (ancestors path_dirname (S n) p)
      with (p :: ancestors path_dirname n (path_dirname p)) in *.
    destruct i as [|i]; simpl in Hq.
    + simplify_eq. split; [|lia]. intros _. split; [done|].
      simpl. pose proof (head_ancestors path_dirname n (path_dirname q)) as Hh.
      by rewrite head_lookup in Hh.
    + destruct (IH i q Hq) as [Hlt Heq]. split.
      * intros Hi. by apply Hlt; lia.
      * intros Hi. apply Heq. lia.
Qed.

(** X1: [getParentDirectories] returns the resolved start path followed,
    entry by entry, by the parent of the entry before; no entry but the
    last is its own parent, and the last one is. *)
Theorem getParentDirectories_parents
    (path_resolve : list string → string) (path_dirname : string → string)
    (startPath : string) (n fuel : nat) :
  depth_of path_dirname (path_resolve [startPath]) n → n < fuel →
  ∃ paths,
    getParentDirectories path_resolve path_dirname fuel startPath = Some paths
    ∧ length paths = S n
    ∧ paths !! 0 = Some (path_resolve [startPath])
    ∧ ∀ i p, paths !! i = Some p →
        (i < n → path_dirname p ≠ p ∧ paths !! S i = Some (path_dirname p))
        ∧ (i = n → path_dirname p = p).
Proof.
  intros Hd Hfuel.
  exists (ancestors path_dirname n (path_resolve [startPath])).
  split; [by apply getParentDirectories_ancestors|].
  split; [apply length_ancestors|]. split.
  - pose proof (head_ancestors path_dirname n (path_resolve [startPath])) as H.
    by rewrite head_lookup in H.
  - by apply ancestors_lookup.
Qed.

Lemma getParentDirectories_parents_witness :
  depth_of Posix.dirname (Posix.resolve "/" ["/a/b"]) 2 ∧ 2 < 5
  ∧ ∃ paths,
      getParentDirectories (Posix.resolve "/") Posix.dirname 5 "/a/b"
      = Some paths
      ∧ length paths = 3 ∧ paths !! 1 = Some "/a".
Proof.
  assert (depth_of Posix.dirname (Posix.resolve "/" ["/a/b"]) 2) as Hd.
  { apply depth_step; [by vm_compute|]. apply depth_step; [by vm_compute|].
    apply depth_root. by vm_compute. }
  split; [exact Hd|]. split; [lia|].
  destruct (getParentDirectories_parents (Posix.resolve "/") Posix.dirname
              "/a/b" 2 5 Hd ltac:(lia)) as (paths & Hrun & Hlen & H0 & Hstep).
  exists paths. split; [exact Hrun|]. split; [exact Hlen|].
  destruct (Hstep 0 _ H0) as [Hnext _].
  destruct (Hnext ltac:(lia)) as [_ H1]. rewrite H1. by vm_compute.
Defined.

Lemma elem_of_rev (x : string) (l : list string) : x ∈ rev l ↔ x ∈ l.
Proof. rewrite !list_elem_of_In. symmetry. apply in_rev. Qed.

(** The two loops walk the same directories: with the same fuel, one runs
    out exactly when the other does. *)
Lemma discovery_loops_agree
    (path_dirname : string → string) (path_join : list string → string)
    (fs_existsSync : string → bool) envFileName fuel :
  ∀ p paths envPaths,
    match getParentDirectories_loop path_dirname fuel p paths with
    | Some all =>
        ∃ dirs,
          all = paths ++ dirs
          ∧ findEnvFilesUpwards_loop path_dirname path_join fs_existsSync
              fuel p envFileName envPaths
            = Some (flat_map (found_in path_join fs_existsSync envFileName) (rev dirs) ++ envPaths)
    | None =>
        findEnvFilesUpwards_loop path_dirname path_join fs_existsSync
          fuel p envFileName envPaths = None
    end.
Proof.
  induction fuel as [|fuel IH]; intros p paths envPaths; [done|].
  cbn [getParentDirectories_loop findEnvFilesUpwards_loop].
  rewrite unshift_candidates. case_decide as Hroot.
  - exists [p]. split; [done|]. simpl. by rewrite app_nil_r.
  - specialize (IH (path_dirname p) (paths ++ [p])
                  (found_in path_join fs_existsSync envFileName p ++ envPaths)).
    destruct (getParentDirectories_loop _ _ _ _) as [all|]; [|done].
    destruct IH as (dirs & -> & ->). exists (p :: dirs).
    split; [by rewrite <-app_assoc|].
    simpl rev. rewrite flat_map_app. simpl.
    by rewrite app_nil_r, <-app_assoc.
Qed.

Section DiscoveryCompose.

Variable path_join : list string → string.
Variable fs_existsSync : string → bool.

Local Abbreviation found := (found_in path_join fs_existsSync).

Lemma elem_of_flat_map_found envFileName dirs f :
  f ∈ flat_map (found envFileName) dirs
  ↔ fs_existsSync f = true
    ∧ ∃ d, d ∈ dirs
           ∧ (f = path_join [d; envFileName]
              ∨ f = path_join [d; ".vscode"; envFileName]).
Proof.
  rewrite list_elem_of_In, in_flat_map. split.
  - intros (d & Hd%list_elem_of_In & Hf%list_elem_of_In).
    unfold found_in in Hf. apply list_elem_of_filter in Hf as [Hex Hf].
    split; [done|]. exists d. split; [done|]. set_solver.
  - intros (Hex & d & Hd & Hf). exists d.
    split; [by apply list_elem_of_In|]. apply list_elem_of_In.
    unfold found_in. apply list_elem_of_filter. split; [done|]. set_solver.
Qed.

Lemma length_flat_map_found envFileName dirs :
  (length (flat_map (found envFileName) dirs) ≤ 2 * length dirs)%nat.
Proof.
  induction dirs as [|d dirs IH]; simpl; [lia|].
  rewrite length_app.
  assert (length (found envFileName d) ≤ 2)%nat; [|lia].
  unfold found_in. etransitivity; [apply length_filter|]. done.
Qed.

End DiscoveryCompose.

(** X2: discovery walks the directories of [getParentDirectories]: with
    the same fuel, [findEnvFilesUpwards] returns the existing candidates
    of the directories that [getParentDirectories] returns, taken in the
    reverse order, and runs out of fuel exactly when it does. *)
Theorem findEnvFilesUpwards_getParentDirectories
    (path_resolve : list string → string) (path_dirname : string → string)
    (path_join : list string → string) (fs_existsSync : string → bool)
    (fuel : nat) (start envFileName : string) :
  match getParentDirectories path_resolve path_dirname fuel start with
  | Some dirs =>
      findEnvFilesUpwards path_resolve path_dirname path_join fs_existsSync
        fuel start envFileName
      = Some (flat_map (found_in path_join fs_existsSync envFileName)
                (rev dirs))
  | None =>
      findEnvFilesUpwards path_resolve path_dirname path_join fs_existsSync
        fuel start envFileName = None
  end.
Proof.
  unfold getParentDirectories, findEnvFilesUpwards.
  pose proof (discovery_loops_agree path_dirname path_join fs_existsSync
                envFileName fuel (path_resolve [start]) [] []) as H.
  destruct (getParentDirectories_loop _ _ _ _) as [all|]; [|done].
  destruct H as (dirs & -> & ->). by rewrite app_nil_r.
Qed.

(** X3: a path is discovered exactly when it exists and is one of the two
    candidates of a directory of the chain; so nothing is returned when no
    candidate exists, and never more than two paths per directory. *)
Theorem findEnvFilesUpwards_sound_complete
    (path_resolve : list string → string) (path_dirname : string → string)
    (path_join : list string → string) (fs_existsSync : string → bool)
    (fuel : nat) (start envFileName : string) (dirs : list string) :
  getParentDirectories path_resolve path_dirname fuel start = Some dirs →
  ∃ result,
    findEnvFilesUpwards path_resolve path_dirname path_join fs_existsSync
      fuel start envFileName = Some result
    ∧ (∀ f, f ∈ result
            ↔ fs_existsSync f = true
              ∧ ∃ d, d ∈ dirs
                     ∧ (f = path_join [d; envFileName]
                        ∨ f = path_join [d; ".vscode"; envFileName]))
    ∧ (length result ≤ 2 * length dirs)%nat.
Proof.
  intros Hdirs.
  pose proof (discovery_loops_agree path_dirname path_join fs_existsSync
                envFileName fuel (path_resolve [start]) [] []) as H.
  unfold getParentDirectories in Hdirs. rewrite Hdirs in H.
  destruct H as (dirs' & -> & Hrun). rewrite app_nil_r in Hrun.
  eexists. split; [exact Hrun|]. split.
  - intros f. rewrite elem_of_flat_map_found.
    split; intros (Hex & d & Hd & Hf); (split; [done|]); exists d;
      (split; [|done]); by apply elem_of_rev.
  - etransitivity; [apply length_flat_map_found|]. by rewrite length_rev.
Qed.

Lemma findEnvFilesUpwards_sound_complete_witness :
  getParentDirectories (Posix.resolve "/") Posix.dirname 5 "/proj"
  = Some ["/proj"; "/"]
  ∧ ∃ result,
      findEnvFilesUpwards (Posix.resolve "/") Posix.dirname Posix.join
        (Sample.existsSync Sample.files) 5 "/proj" ".env" = Some result
      ∧ (length result ≤ 4)%nat.
Proof.
  assert (getParentDirectories (Posix.resolve "/") Posix.dirname 5 "/proj"
          = Some ["/proj"; "/"]) as Hdirs by (vm_compute; reflexivity).
  split; [exact Hdirs|].
  destruct (findEnvFilesUpwards_sound_complete (Posix.resolve "/")
              Posix.dirname Posix.join (Sample.existsSync Sample.files)
              5 "/proj" ".env" _ Hdirs) as (result & Hrun & _ & Hlen).
  exists result. split; [exact Hrun|]. exact Hlen.
Defined.

(** ** readEnvFiles and parseEnvFiles *)

Lemma flat_map_found_nil (path_join : list string → string)
    (fs_existsSync : string → bool) envFileName dirs :
  flat_map (found_in path_join fs_existsSync envFileName) dirs = []
  ↔ ∀ d, d ∈ dirs →
      fs_existsSync (path_join [d; envFileName]) = false
      ∧ fs_existsSync (path_join [d; ".vscode"; envFileName]) = false.
Proof.
  split.
  - intros Hnil d Hd.
    assert (∀ f, f ∉ flat_map (found_in path_join fs_existsSync envFileName)
                       dirs) as Hnone
      by (rewrite Hnil; set_solver).
    split; apply not_true_is_false; intros Hex.
    + apply (Hnone (path_join [d; envFileName])).
      apply elem_of_flat_map_found. eauto.
    + apply (Hnone (path_join [d; ".vscode"; envFileName])).
      apply elem_of_flat_map_found. eauto.
  - intros Hnone.
    destruct (flat_map _ dirs) as [|f fs] eqn:Hfs; [done|].
    assert (f ∈ flat_map (found_in path_join fs_existsSync envFileName) dirs)
      as Hin by (rewrite Hfs; set_solver).
    apply elem_of_flat_map_found in Hin as (Hex & d & Hd & Hf).
    destruct (Hnone d Hd) as [H1 H2]. destruct Hf as [-> | ->]; congruence.
Qed.

(** X4: [readEnvFiles] returns null exactly when neither candidate exists
    in any directory of the chain, and then it has changed nothing; as
    soon as one candidate exists, even one that cannot be read, the call
    does not return null. *)
Theorem readEnvFiles_null_iff_nothing_found
    (path_resolve : list string → string) (path_dirname : string → string)
    (path_join : list string → string) (fs_existsSync : string → bool)
    (fs_readFileSync : string → completion string)
    (dotenv_parse : string → completion EnvMap)
    (dotenvExpand_expand : Expander)
    (fuel : nat) (folder : vscode.WorkspaceFolder)
    (envFileName : string) (expansionBase : EnvMap) (w : World)
    (dirs : list string) :
  getParentDirectories path_resolve path_dirname fuel (vscode.fsPath folder)
  = Some dirs →
  let run :=
    readEnvFiles path_resolve path_dirname path_join fs_existsSync
      fs_readFileSync dotenv_parse dotenvExpand_expand
      fuel folder envFileName expansionBase w in
  (run.1 = Returned None
   ↔ ∀ d, d ∈ dirs →
       fs_existsSync (path_join [d; envFileName]) = false
       ∧ fs_existsSync (path_join [d; ".vscode"; envFileName]) = false)
  ∧ (run.1 = Returned None → run.2 = w).
Proof.
  intros Hdirs run.
  pose proof (discovery_loops_agree path_dirname path_join fs_existsSync
                envFileName fuel (path_resolve [vscode.fsPath folder]) [] [])
    as H.
  unfold getParentDirectories in Hdirs. rewrite Hdirs in H.
  destruct H as (dirs' & Heq & Hfound). simpl in Heq. subst dirs'.
  rewrite app_nil_r in Hfound.
  assert (∀ d, d ∈ rev dirs ↔ d ∈ dirs) as Hrev
    by (intros d; apply elem_of_rev).
  pose proof (flat_map_found_nil path_join fs_existsSync envFileName
                (rev dirs)) as Hnil.
  setoid_rewrite Hrev in Hnil. rewrite <-Hnil.
  subst run. unfold readEnvFiles, findEnvFilesUpwards. rewrite Hfound.
  destruct (flat_map _ (rev dirs)) as [|p envPaths]; [done|].
  unfold mbind, M_bind, bind.
  destruct (parseEnvFiles _ _ _ _ _ _) as [[env| |] w']; simpl;
    split; try split; done.
Qed.

Lemma readEnvFiles_null_iff_nothing_found_witness :
  getParentDirectories (Posix.resolve "/") Posix.dirname 5 "/proj"
  = Some ["/proj"; "/"]
  ∧ (readEnvFiles (Posix.resolve "/") Posix.dirname Posix.join
       (Sample.existsSync ∅) (Sample.readFileSync ∅) Sample.parse
       Sample.expand_copy 5 (Sample.folder "/proj") ".env" ∅
       Sample.fresh_world).2 = Sample.fresh_world.
Proof.
  assert (getParentDirectories (Posix.resolve "/") Posix.dirname 5 "/proj"
          = Some ["/proj"; "/"]) as Hdirs by (vm_compute; reflexivity).
  split; [exact Hdirs|].
  destruct (readEnvFiles_null_iff_nothing_found (Posix.resolve "/")
              Posix.dirname Posix.join (Sample.existsSync ∅)
              (Sample.readFileSync ∅) Sample.parse Sample.expand_copy
              5 (Sample.folder "/proj") ".env" ∅ Sample.fresh_world _ Hdirs)
    as [Hiff Hsame].
  apply Hsame, Hiff. intros d Hd. split; vm_compute; reflexivity.
Defined.

Lemma layers_all_fail (load : string → completion EnvMap) paths :
  (∀ p, p ∈ paths → ∃ err, load p = Throw err) →
  layers load paths = [] ∧ length (failures load paths) = length paths.
Proof.
  induction paths as [|p paths IH]; intros Hfail; [done|].
  destruct (Hfail p) as [err Hp]; [set_solver|].
  destruct IH as [IH1 IH2]; [intros; apply Hfail; set_solver|].
  unfold layers, failures in *.
  change (p :: paths) with ([p] ++ paths). rewrite !omap_app, IH1.
  rewrite length_app, IH2. simpl. by rewrite Hp.
Qed.

(** X5: when every file fails to be read or parsed, and when there is no
    path at all, [parseEnvFiles] returns the empty map without calling the
    expander: one line is logged per file and nothing else changes, the
    expansion base never being written to [process.env]. *)
Theorem parseEnvFiles_all_fail
    (fs_readFileSync : string → completion string)
    (dotenv_parse : string → completion EnvMap)
    (dotenvExpand_expand : Expander)
    (paths : list string) (expansionBase : EnvMap) (w : World) :
  (∀ p, p ∈ paths → ∃ err, load fs_readFileSync dotenv_parse p = Throw err) →
  parseEnvFiles fs_readFileSync dotenv_parse dotenvExpand_expand
    paths expansionBase w
  = (Returned ∅,
     log_errors (failures (load fs_readFileSync dotenv_parse) paths) w)
  ∧ length (failures (load fs_readFileSync dotenv_parse) paths)
    = length paths.
Proof.
  intros Hfail. destruct (layers_all_fail _ _ Hfail) as [Hlayers Hlen].
  split; [|done]. rewrite parseEnvFiles_run, Hlayers. simpl.
  unfold expandVariables. by rewrite decide_True.
Qed.

Lemma parseEnvFiles_all_fail_witness :
  (∀ p, p ∈ ["/proj/sub/.env"; "/nowhere/.env"] →
        ∃ err, load (Sample.readFileSync Sample.files) Sample.parse p
               = Throw err)
  ∧ (parseEnvFiles (Sample.readFileSync Sample.files) Sample.parse
       Sample.expand_throw ["/proj/sub/.env"; "/nowhere/.env"]
       {[ "HOST" := "example.com" ]} Sample.fresh_world).1 = Returned ∅.
Proof.
  assert (∀ p, p ∈ ["/proj/sub/.env"; "/nowhere/.env"] →
            ∃ err, load (Sample.readFileSync Sample.files) Sample.parse p
                   = Throw err) as Hfail.
  { intros p Hp. apply elem_of_cons in Hp as [->|Hp];
      [|apply elem_of_cons in Hp as [->|Hp]; [|by apply elem_of_nil in Hp]];
      eexists; vm_compute; reflexivity. }
  split; [exact Hfail|].
  destruct (parseEnvFiles_all_fail (Sample.readFileSync Sample.files)
              Sample.parse Sample.expand_throw _
              {[ "HOST" := "example.com" ]} Sample.fresh_world Hfail)
    as [-> _].
  reflexivity.
Defined.

Lemma merge_lookup (ls : list EnvMap) (merged : EnvMap) K :
  (∀ v, foldl assign_entries merged ls !! K = Some v →
        merged !! K = Some v ∨ ∃ L, L ∈ ls ∧ L !! K = Some v)
  ∧ (foldl assign_entries merged ls !! K = None
     ↔ merged !! K = None ∧ ∀ L, L ∈ ls → L !! K = None).
Proof.
  revert merged. induction ls as [|L ls IH]; intros merged; simpl.
  { split; [auto|]. split; [|tauto]. intros ?. split; [done|]. set_solver. }
  destruct (IH (assign_entries merged L)) as [IHs IHn].
  rewrite assign_entries_lookup in IHs, IHn. split.
  - intros v Hv. destruct (IHs v Hv) as [H|(L' & HL' & H)].
    + destruct (L !! K) eqn:HL; [|by left].
      right. exists L. split; [set_solver|congruence].
    + right. exists L'. split; [set_solver|done].
  - rewrite IHn. split.
    + intros [H Hls]. destruct (L !! K) eqn:HL; [done|].
      split; [done|]. intros L' [->|?]%elem_of_cons; auto.
    + intros [H Hls]. split.
      * rewrite (Hls L) by set_solver. done.
      * intros L' HL'. apply Hls. set_solver.
Qed.

(** X6: the merge invents nothing: a key bound in the merged map has the
    value some parsed file gives it, and a key is unbound in the merged map
    exactly when no parsed file defines it. *)
Theorem parseEnvFiles_merged_from_layers
    (fs_readFileSync : string → completion string)
    (dotenv_parse : string → completion EnvMap)
    (paths : list string) (K : string) :
  let merged := (parseEnvFiles_loop fs_readFileSync dotenv_parse paths).1 in
  let ls := layers (load fs_readFileSync dotenv_parse) paths in
  (∀ v, merged !! K = Some v → ∃ L, L ∈ ls ∧ L !! K = Some v)
  ∧ (merged !! K = None ↔ ∀ L, L ∈ ls → L !! K = None).
Proof.
  intros merged ls. subst merged ls. rewrite parseEnvFiles_loop_layers. simpl.
  destruct (merge_lookup
              (layers (load fs_readFileSync dotenv_parse) paths) ∅ K)
    as [Hs Hn].
  split.
  - intros v Hv. destruct (Hs v Hv) as [H|H]; [|done].
    by rewrite lookup_empty in H.
  - rewrite Hn, lookup_empty. naive_solver.
Qed.

(** ** expandVariables *)

Lemma expose_base_env (baseEnv : EnvMap) (env : gmap string string) :
  (expose_base baseEnv ((∅, ∅), env)).2 = baseEnv ∪ env.
Proof.
  assert (snapshot_of env ((∅, ∅) : Snapshot) env) as H0
    by (split; [set_solver|done]).
  destruct (expose_base_spec _ _ _ baseEnv H0) as (_ & _ & Hlook).
  apply map_eq. intros k. rewrite Hlook, lookup_union.
  by destruct (baseEnv !! k), (env !! k).
Qed.

(** X7: [expandVariables] returns the empty map at once for an empty map;
    otherwise the expander runs on [process.env] overlaid with the base
    map, the base winning; what it returns is returned (the empty map when
    its [parsed] is undefined), and when it throws the exception leaves
    [expandVariables] with [process.env] exactly as the expander left
    it. *)
Theorem expandVariables_runs_on_overlay
    (dotenvExpand_expand : Expander) (map baseEnv : EnvMap) (w : World) :
  if decide (map = ∅) then
    expandVariables dotenvExpand_expand map baseEnv w = (Returned ∅, w)
  else
    match dotenvExpand_expand map (baseEnv ∪ process_env w) with
    | (Throw err, env) =>
        expandVariables dotenvExpand_expand map baseEnv w
        = (Thrown err, set_process_env env w)
    | (Normal expansion_parsed, env) =>
        ∃ w',
          expandVariables dotenvExpand_expand map baseEnv w
          = (Returned (default ∅ expansion_parsed), w')
          ∧ environmentVariableCollection w'
            = environmentVariableCollection w
          ∧ console_error w' = console_error w
    end.
Proof.
  unfold expandVariables. case_decide; [done|].
  rewrite expose_base_env.
  destruct (dotenvExpand_expand map (baseEnv ∪ process_env w))
    as [[r|err] env]; [|done].
  by eexists.
Qed.

Lemma expandVariables_keeps_collection
    (dotenvExpand_expand : Expander) (map baseEnv : EnvMap) (w : World) :
  environmentVariableCollection
    (expandVariables dotenvExpand_expand map baseEnv w).2
  = environmentVariableCollection w.
Proof.
  unfold expandVariables. case_decide; [done|].
  by destruct (dotenvExpand_expand _ _) as [[r|err] env].
Qed.

(** ** filterEnvByAllowed and the stored allow-list *)

Lemma filter_lookup_cons (env : EnvMap) a ks k :
  filterEnvByAllowed env (Some (a :: ks)) !! k
  = if decide (k ∈ a :: ks) then env !! k else None.
Proof.
  unfold filterEnvByAllowed. rewrite filter_fold_lookup, lookup_empty.
  case_decide; [|done]. by destruct (env !! k).
Qed.


(** X9: only the set of names in a non-empty allow-list matters: two lists
    with the same elements, in any order and with any repetitions, filter
    alike. *)
Theorem filterEnvByAllowed_same_elements
    (env : EnvMap) (a b : string) (A B : list string) :
  (∀ k, k ∈ a :: A ↔ k ∈ b :: B) →
  filterEnvByAllowed env (Some (a :: A)) = filterEnvByAllowed env (Some (b :: B)).
Proof.
  intros Hsame. apply map_eq. intros k. rewrite !filter_lookup_cons.
  repeat case_decide; try done; by (exfalso; naive_solver).
Qed.

Lemma filterEnvByAllowed_same_elements_witness :
  (∀ k, k ∈ "B" :: ["A"; "B"] ↔ k ∈ "A" :: ["B"])
  ∧ filterEnvByAllowed {[ "A" := "1"; "C" := "3" ]} (Some ["B"; "A"; "B"])
    = filterEnvByAllowed {[ "A" := "1"; "C" := "3" ]} (Some ["A"; "B"]).
Proof.
  assert (∀ k, k ∈ "B" :: ["A"; "B"] ↔ k ∈ "A" :: ["B"]) as Hsame
    by set_solver.
  split; [exact Hsame|].
  exact (filterEnvByAllowed_same_elements _ "B" "A" ["A"; "B"] ["B"] Hsame).
Defined.

Lemma stateKeyForFilter_inj folder folder' :
  stateKeyForFilter folder = stateKeyForFilter folder' →
  vscode.fsPath folder = vscode.fsPath folder'.
Proof. unfold stateKeyForFilter. apply String.app_inj. Qed.

(** X10: the allow-list saved for a folder is the one read back for it;
    saving undefined removes it; the list of a folder with another path is
    not affected; and after saving an empty selection the filter lets
    every variable through. *)
Theorem setAllowedForFolder_getAllowedForFolder
    (workspaceState : gmap string (list string))
    (folder : vscode.WorkspaceFolder) (keys : option (list string)) :
  getAllowedForFolder (setAllowedForFolder folder keys workspaceState) folder
  = keys
  ∧ (∀ folder',
       vscode.fsPath folder' ≠ vscode.fsPath folder →
       getAllowedForFolder
         (setAllowedForFolder folder keys workspaceState) folder'
       = getAllowedForFolder workspaceState folder')
  ∧ (∀ env,
       filterEnvByAllowed env
         (getAllowedForFolder
            (setAllowedForFolder folder (Some []) workspaceState) folder)
       = env).
Proof.
  unfold getAllowedForFolder, setAllowedForFolder, memento_update.
  fold (stateKeyForFilter folder). split; [|split].
  - destruct keys; by rewrite ?lookup_insert_eq, ?lookup_delete_eq.
  - intros folder' Hne. fold (stateKeyForFilter folder').
    assert (stateKeyForFilter folder ≠ stateKeyForFilter folder') as Hkey.
    { intros Heq. by apply stateKeyForFilter_inj in Heq. }
    destruct keys; by rewrite ?lookup_insert_ne, ?lookup_delete_ne.
  - intros env. by rewrite lookup_insert_eq.
Qed.

(** ** resolveEnvironments *)


(** ** Frame of getConfiguredEnvironment *)

Lemma keeps_collection_ret {A} (a : A) : keeps_collection (mret a).
Proof. by intros w. Qed.

Lemma keeps_collection_bind {A B} (m : M A) (k : A → M B) :
  keeps_collection m → (∀ a, keeps_collection (k a)) →
  keeps_collection (m ≫= k).
Proof.
  intros Hm Hk w. unfold mbind, M_bind, bind.
  specialize (Hm w). destruct (m w) as [[a|err|] w1]; simpl in *; try done.
  by rewrite Hk.
Qed.

Lemma keeps_collection_resolveEnvironments path_resolve settings folder
    variables :
  keeps_collection
    (resolveEnvironments path_resolve settings folder variables).
Proof. by intros w. Qed.

Lemma keeps_collection_expandVariables expand map baseEnv :
  keeps_collection (expandVariables expand map baseEnv).
Proof. intros w. apply expandVariables_keeps_collection. Qed.

Lemma keeps_collection_readEnvFiles path_resolve path_dirname path_join
    fs_existsSync fs_readFileSync dotenv_parse expand fuel folder
    envFileName expansionBase :
  keeps_collection
    (readEnvFiles path_resolve path_dirname path_join fs_existsSync
       fs_readFileSync dotenv_parse expand fuel folder envFileName
       expansionBase).
Proof.
  unfold readEnvFiles.
  destruct (findEnvFilesUpwards _ _ _ _ _ _ _) as [[|p envPaths]|];
    [by intros w| |by intros w].
  apply keeps_collection_bind; [|intros a; apply keeps_collection_ret].
  intros w. rewrite parseEnvFiles_run.
  by rewrite expandVariables_keeps_collection.
Qed.

Lemma keeps_collection_getConfiguredEnvironment path_resolve path_dirname
    path_join fs_existsSync fs_readFileSync dotenv_parse expand settings
    workspaceState fuel folder :
  keeps_collection
    (getConfiguredEnvironment path_resolve path_dirname path_join
       fs_existsSync fs_readFileSync dotenv_parse expand settings
       workspaceState fuel folder).
Proof.
  unfold getConfiguredEnvironment.
  apply keeps_collection_bind;
    [apply keeps_collection_resolveEnvironments|intros r1].
  apply keeps_collection_bind;
    [apply keeps_collection_readEnvFiles|intros r2].
  apply keeps_collection_bind;
    [apply keeps_collection_resolveEnvironments|intros r3].
  apply keeps_collection_bind;
    [apply keeps_collection_expandVariables|intros r4].
  apply keeps_collection_ret.
Qed.

(** X12: whatever the expander and the libraries do, and whether the call
    returns, throws or runs out of fuel, [getConfiguredEnvironment] and
    [resolveDebugConfiguration] leave the environment variable collection
    as they found it. *)
Theorem getConfiguredEnvironment_keeps_collection
    (path_resolve : list string → string) (path_dirname : string → string)
    (path_join : list string → string) (fs_existsSync : string → bool)
    (fs_readFileSync : string → completion string)
    (dotenv_parse : string → completion EnvMap)
    (dotenvExpand_expand : Expander)
    (settings : Configuration) (workspaceState : gmap string (list string))
    (fuel : nat) (w : World) :
  (∀ folder,
     environmentVariableCollection
       (getConfiguredEnvironment path_resolve path_dirname path_join
          fs_existsSync fs_readFileSync dotenv_parse dotenvExpand_expand
          settings workspaceState fuel folder w).2
     = environmentVariableCollection w)
  ∧ (∀ V folder (debugConfiguration : option (debug.DebugConfiguration V)),
       environmentVariableCollection
         (resolveDebugConfiguration path_resolve path_dirname path_join
            fs_existsSync fs_readFileSync dotenv_parse dotenvExpand_expand
            settings workspaceState fuel folder debugConfiguration w).2
       = environmentVariableCollection w).
Proof.
  split.
  - intros folder. apply keeps_collection_getConfiguredEnvironment.
  - intros V [folder|] debugConfiguration; [|done].
    unfold resolveDebugConfiguration.
    apply keeps_collection_bind;
      [apply keeps_collection_getConfiguredEnvironment|].
    intros ce. apply keeps_collection_ret.
Qed.

(** ** What getConfiguredEnvironment returns *)



(** ** updateEnvironmentVariableCollection as a whole *)

Lemma prepend_cwd_components_inv path_resolve path_dirname platform fuel
    folder (st st' : EnvMap * World) :
  prepend_cwd_components path_resolve path_dirname platform fuel folder st
  = Some st' →
  ∃ directories,
    getParentDirectories path_resolve path_dirname fuel (vscode.fsPath folder)
    = Some directories
    ∧ st'.1
      = <["PATH" := JS.join (pathSeparator platform) directories
                    +:+ pathSeparator platform]> st.1
    ∧ process_env st'.2
      = <["PATH" := JS.join (pathSeparator platform) directories
                    +:+ pathSeparator platform]> (process_env st.2)
    ∧ environmentVariableCollection st'.2
      = <["PATH" := {| vscode.mtype := vscode.MPrepend;
                       vscode.mvalue :=
                         JS.join (pathSeparator platform) directories
                         +:+ pathSeparator platform;
                       vscode.moptions := vscode.default_options |}]>
          (environmentVariableCollection st.2)
    ∧ console_error st'.2 = console_error st.2.
Proof.
  unfold prepend_cwd_components.
  destruct (getParentDirectories _ _ _ _) as [directories|]; [|done].
  unfold collection_value, vscode.get, vscode.prepend, set_collection.
  simpl. rewrite lookup_insert_eq. simpl. intros [= <-].
  by exists directories.
Qed.

Lemma updateEnvironmentVariableCollection_run
    path_resolve path_dirname path_join fs_existsSync fs_readFileSync
    dotenv_parse dotenvExpand_expand platform settings workspaceState
    fuel folder w ce w1 :
  getConfiguredEnvironment path_resolve path_dirname path_join
    fs_existsSync fs_readFileSync dotenv_parse dotenvExpand_expand
    settings workspaceState fuel folder w = (Returned ce, w1) →
  updateEnvironmentVariableCollection path_resolve path_dirname path_join
    fs_existsSync fs_readFileSync dotenv_parse dotenvExpand_expand
    platform settings workspaceState fuel (Some folder) w
  = if decide (filtered ce = ∅) then (Returned ∅, w1)
    else
      let st :=
        apply_strategies platform
          (default DEFAULT_MERGE_STRATEGIES (cfg_mergeStrategies settings))
          (filtered ce) (∅, w1) in
      if default true (cfg_prependCwdComponentsToPath settings) then
        match prepend_cwd_components path_resolve path_dirname platform
                fuel folder st with
        | Some st' => (Returned st'.1, st'.2)
        | None => (OutOfFuel, st.2)
        end
      else (Returned st.1, st.2).
Proof.
  intros Hrun.
  pose proof (getConfiguredEnvironment_config _ _ _ _ _ _ _ _ _ _ _ _ _ _
                Hrun) as Hconfig.
  unfold updateEnvironmentVariableCollection, mbind, M_bind, bind.
  rewrite Hrun. case_decide; [done|]. by rewrite Hconfig.
Qed.

(** What a call that gets past the two early returns leaves behind: the
    string prepended to [PATH], if any, and the state of every key. *)
Lemma updateEnvironmentVariableCollection_inv
    path_resolve path_dirname path_join fs_existsSync fs_readFileSync
    dotenv_parse dotenvExpand_expand platform settings workspaceState
    fuel folder w ce w1 ensured w' :
  getConfiguredEnvironment path_resolve path_dirname path_join
    fs_existsSync fs_readFileSync dotenv_parse dotenvExpand_expand
    settings workspaceState fuel folder w = (Returned ce, w1) →
  filtered ce ≠ ∅ →
  updateEnvironmentVariableCollection path_resolve path_dirname path_join
    fs_existsSync fs_readFileSync dotenv_parse dotenvExpand_expand
    platform settings workspaceState fuel (Some folder) w
  = (Returned ensured, w') →
  ∃ path : option string,
    (if default true (cfg_prependCwdComponentsToPath settings) then
       ∃ directories,
         getParentDirectories path_resolve path_dirname fuel
           (vscode.fsPath folder) = Some directories
         ∧ path = Some (JS.join (pathSeparator platform) directories
                        +:+ pathSeparator platform)
     else path = None)
    ∧ (∀ k, k ≠ "PATH" ∨ path = None →
         ensured !! k
         = (λ v, stored_value platform
                   (default Replace
                      (default DEFAULT_MERGE_STRATEGIES
                         (cfg_mergeStrategies settings) !! k))
                   (JS.nullish (collection_value k w1) "") v)
           <$> filtered ce !! k
         ∧ process_env w' !! k
           = match filtered ce !! k with
             | Some v =>
                 Some (stored_value platform
                         (default Replace
                            (default DEFAULT_MERGE_STRATEGIES
                               (cfg_mergeStrategies settings) !! k))
                         (JS.nullish (collection_value k w1) "") v)
             | None => process_env w1 !! k
             end
         ∧ environmentVariableCollection w' !! k
           = match filtered ce !! k with
             | Some v =>
                 Some (stored_mutator platform
                         (default Replace
                            (default DEFAULT_MERGE_STRATEGIES
                               (cfg_mergeStrategies settings) !! k))
                         (JS.nullish (collection_value k w1) "") v)
             | None => environmentVariableCollection w1 !! k
             end)
    ∧ (∀ ps, path = Some ps →
         ensured !! "PATH" = Some ps
         ∧ process_env w' !! "PATH" = Some ps
         ∧ environmentVariableCollection w' !! "PATH"
           = Some {| vscode.mtype := vscode.MPrepend;
                     vscode.mvalue := ps;
                     vscode.moptions := vscode.default_options |})
    ∧ console_error w' = console_error w1.
Proof.
  intros Hrun Hne.
  rewrite (updateEnvironmentVariableCollection_run _ _ _ _ _ _ _ _ _ _ _ _
             _ _ _ Hrun).
  rewrite decide_False by done. cbv zeta.
  destruct (apply_strategies_spec platform
              (default DEFAULT_MERGE_STRATEGIES
                 (cfg_mergeStrategies settings)) (filtered ce) ∅ w1)
    as (Hens & Henv & Hcoll & Hcons).
  destruct (apply_strategies _ _ _ _) as [ens0 w0]. simpl in *.
  destruct (default true (cfg_prependCwdComponentsToPath settings)).
  - destruct (prepend_cwd_components _ _ _ _ _ _) as [st'|] eqn:Hprep;
      [|done].
    intros [= <- <-].
    apply prepend_cwd_components_inv in Hprep
      as (directories & Hdirs & -> & -> & -> & ->). simpl.
    eexists. split; [by exists directories|]. split; [|split; [|done]].
    + intros k [Hk|?]; [|done].
      rewrite !lookup_insert_ne by done. rewrite Hens, Henv, Hcoll.
      rewrite lookup_empty. by destruct (filtered ce !! k).
    + intros ps [= <-]. by rewrite !lookup_insert_eq.
  - intros [= <- <-]. exists None. split; [done|].
    split; [|split; [done|done]].
    intros k _. rewrite Hens, Henv, Hcoll, lookup_empty.
    by destruct (filtered ce !! k).
Qed.

(** X14: without a folder [updateEnvironmentVariableCollection] returns
    the empty map and changes nothing; when the filtered map is empty it
    returns the empty map with the collection as it was, so entries that an
    earlier call registered stay in place; and an exception of
    [getConfiguredEnvironment] leaves the call with the collection as it
    was. *)
Theorem updateEnvironmentVariableCollection_nothing_to_apply
    (path_resolve : list string → string) (path_dirname : string → string)
    (path_join : list string → string) (fs_existsSync : string → bool)
    (fs_readFileSync : string → completion string)
    (dotenv_parse : string → completion EnvMap)
    (dotenvExpand_expand : Expander) (platform : string)
    (settings : Configuration) (workspaceState : gmap string (list string))
    (fuel : nat) (w : World) :
  updateEnvironmentVariableCollection path_resolve path_dirname path_join
    fs_existsSync fs_readFileSync dotenv_parse dotenvExpand_expand
    platform settings workspaceState fuel None w
  = (Returned ∅, w)
  ∧ (∀ folder ce w1,
       getConfiguredEnvironment path_resolve path_dirname path_join
         fs_existsSync fs_readFileSync dotenv_parse dotenvExpand_expand
         settings workspaceState fuel folder w = (Returned ce, w1) →
       filtered ce = ∅ →
       updateEnvironmentVariableCollection path_resolve path_dirname
         path_join fs_existsSync fs_readFileSync dotenv_parse
         dotenvExpand_expand platform settings workspaceState fuel
         (Some folder) w
       = (Returned ∅, w1)
       ∧ environmentVariableCollection w1
         = environmentVariableCollection w)
  ∧ (∀ folder err w1,
       getConfiguredEnvironment path_resolve path_dirname path_join
         fs_existsSync fs_readFileSync dotenv_parse dotenvExpand_expand
         settings workspaceState fuel folder w = (Thrown err, w1) →
       updateEnvironmentVariableCollection path_resolve path_dirname
         path_join fs_existsSync fs_readFileSync dotenv_parse
         dotenvExpand_expand platform settings workspaceState fuel
         (Some folder) w
       = (Thrown err, w1)
       ∧ environmentVariableCollection w1
         = environmentVariableCollection w).
Proof.
  split; [done|]. split.
  - intros folder ce w1 Hrun Hempty.
    rewrite (updateEnvironmentVariableCollection_run _ _ _ _ _ _ _ _ _ _ _
               _ _ _ _ Hrun).
    rewrite decide_True by done. split; [done|].
    pose proof (keeps_collection_getConfiguredEnvironment path_resolve
                  path_dirname path_join fs_existsSync fs_readFileSync
                  dotenv_parse dotenvExpand_expand settings workspaceState
                  fuel folder w) as Hkeep.
    by rewrite Hrun in Hkeep.
  - intros folder err w1 Hrun.
    unfold updateEnvironmentVariableCollection, mbind, M_bind, bind.
    rewrite Hrun. split; [done|].
    pose proof (keeps_collection_getConfiguredEnvironment path_resolve
                  path_dirname path_join fs_existsSync fs_readFileSync
                  dotenv_parse dotenvExpand_expand settings workspaceState
                  fuel folder w) as Hkeep.
    by rewrite Hrun in Hkeep.
Qed.

(** X15: a call of [updateEnvironmentVariableCollection] that returns
    never removes an entry of the collection: a key that is neither in the
    filtered map nor [PATH] keeps the mutator it had, also when an earlier
    call registered it for a variable that has since left the files. Every
    entry of the returned map is the value the collection holds for its
    key and the value [process.env] is left with; every key of the filtered
    map is in the returned map, and the command registered for it answers
    with that value. *)
Theorem updateEnvironmentVariableCollection_frame
    (path_resolve : list string → string) (path_dirname : string → string)
    (path_join : list string → string) (fs_existsSync : string → bool)
    (fs_readFileSync : string → completion string)
    (dotenv_parse : string → completion EnvMap)
    (dotenvExpand_expand : Expander) (platform : string)
    (settings : Configuration) (workspaceState : gmap string (list string))
    (fuel : nat) (folder : vscode.WorkspaceFolder)
    (w w1 w' : World) (ce : ConfiguredEnvironment) (ensured : EnvMap) :
  getConfiguredEnvironment path_resolve path_dirname path_join
    fs_existsSync fs_readFileSync dotenv_parse dotenvExpand_expand
    settings workspaceState fuel folder w = (Returned ce, w1) →
  updateEnvironmentVariableCollection path_resolve path_dirname path_join
    fs_existsSync fs_readFileSync dotenv_parse dotenvExpand_expand
    platform settings workspaceState fuel (Some folder) w
  = (Returned ensured, w') →
  (∀ k, filtered ce !! k = None → k ≠ "PATH" →
        environmentVariableCollection w' !! k
        = environmentVariableCollection w !! k
        ∧ ensured !! k = None)
  ∧ (∀ k v, ensured !! k = Some v →
            collection_value k w' = Some v ∧ process_env w' !! k = Some v)
  ∧ (∀ k, is_Some (filtered ce !! k) →
          ∃ e, ensured !! k = Some e ∧ variable_command k w' = e)
  ∧ dom (environmentVariableCollection w)
    ⊆ dom (environmentVariableCollection w').
Proof.
  intros Hrun Hupdate.
  pose proof (keeps_collection_getConfiguredEnvironment path_resolve
                path_dirname path_join fs_existsSync fs_readFileSync
                dotenv_parse dotenvExpand_expand settings workspaceState
                fuel folder w) as Hkeep.
  rewrite Hrun in Hkeep. simpl in Hkeep.
  destruct (decide (filtered ce = ∅)) as [Hempty|Hne].
  - rewrite (updateEnvironmentVariableCollection_run _ _ _ _ _ _ _ _ _ _ _
               _ _ _ _ Hrun) in Hupdate.
    rewrite decide_True in Hupdate by done. injection Hupdate as <- <-.
    rewrite Hkeep. split; [|split; [|split; [|done]]].
    + intros k _ _. by rewrite lookup_empty.
    + intros k v. by rewrite lookup_empty.
    + intros k. rewrite Hempty, lookup_empty. by intros [? ?].
  - destruct (updateEnvironmentVariableCollection_inv _ _ _ _ _ _ _ _ _ _
                _ _ _ _ _ _ _ Hrun Hne Hupdate)
      as (path & _ & Hother & HPATH & _).
    assert (∀ k v, ensured !! k = Some v →
              collection_value k w' = Some v ∧ process_env w' !! k = Some v)
      as Hmirror.
    { intros k v Hkv. unfold collection_value, vscode.get.
      destruct (decide (k ≠ "PATH" ∨ path = None)) as [Hk|Hk].
      - destruct (Hother k Hk) as (He & Hp & Hc).
        rewrite Hkv in He. rewrite Hp, Hc.
        destruct (filtered ce !! k); simpl in *; by simplify_eq.
      - destruct path as [ps|]; [|by destruct Hk; right].
        destruct (decide (k = "PATH")) as [->|?]; [|by destruct Hk; left].
        destruct (HPATH ps eq_refl) as (He & Hp & Hc).
        rewrite Hkv in He. rewrite Hp, Hc. simpl. by simplify_eq. }
    assert (∀ k, is_Some (filtered ce !! k) → is_Some (ensured !! k))
      as Hdom.
    { intros k [v Hk].
      destruct (decide (k ≠ "PATH" ∨ path = None)) as [Hk'|Hk'].
      - destruct (Hother k Hk') as (-> & _). by rewrite Hk.
      - destruct path as [ps|]; [|by destruct Hk'; right].
        destruct (decide (k = "PATH")) as [->|?]; [|by destruct Hk'; left].
        destruct (HPATH ps eq_refl) as (-> & _). done. }
    split; [|split; [done|split]].
    + intros k Hk HnePATH.
      destruct (Hother k (or_introl HnePATH)) as (-> & _ & ->).
      by rewrite Hk, Hkeep.
    + intros k Hk. destruct (Hdom k Hk) as [e He]. exists e.
      split; [done|]. unfold variable_command.
      by destruct (Hmirror k e He) as (-> & _).
    + intros k. rewrite !elem_of_dom. rewrite <-Hkeep. intros Hin.
      destruct (decide (k ≠ "PATH" ∨ path = None)) as [Hk|Hk].
      * destruct (Hother k Hk) as (_ & _ & ->).
        by destruct (filtered ce !! k).
      * destruct path as [ps|]; [|by destruct Hk; right].
        destruct (decide (k = "PATH")) as [->|?]; [|by destruct Hk; left].
        destruct (HPATH ps eq_refl) as (_ & _ & ->). done.
Qed.

Lemma updateEnvironmentVariableCollection_frame_witness :
  let configured :=
    getConfiguredEnvironment (Posix.resolve "/") Posix.dirname Posix.join
      (Sample.existsSync Sample.files) (Sample.readFileSync Sample.files)
      Sample.parse Sample.expand_copy Sample.no_settings ∅
      5 (Sample.folder "/proj") Sample.old_path_world in
  let run :=
    updateEnvironmentVariableCollection (Posix.resolve "/") Posix.dirname
      Posix.join (Sample.existsSync Sample.files)
      (Sample.readFileSync Sample.files) Sample.parse Sample.expand_copy
      "linux" Sample.no_settings ∅ 5 (Some (Sample.folder "/proj"))
      Sample.old_path_world in
  ∃ ce ensured,
    configured = (Returned ce, configured.2)
    ∧ run = (Returned ensured, run.2)
    ∧ dom (environmentVariableCollection Sample.old_path_world)
      ⊆ dom (environmentVariableCollection run.2).
Proof.
  intros configured run.
  assert (∃ ce, configured.1 = Returned ce) as [ce Hce]
    by (eexists; vm_compute; reflexivity).
  assert (configured = (Returned ce, configured.2)) as Hrun
    by (rewrite <-Hce; apply surjective_pairing).
  assert (∃ ensured, run.1 = Returned ensured) as [ensured Hensured]
    by (eexists; vm_compute; reflexivity).
  assert (run = (Returned ensured, run.2)) as Hupdate
    by (rewrite <-Hensured; apply surjective_pairing).
  exists ce, ensured. split; [exact Hrun|]. split; [exact Hupdate|].
  pose proof (updateEnvironmentVariableCollection_frame _ _ _ _ _ _ _ _ _ _
                _ _ _ _ _ _ _ Hrun Hupdate) as H.
  exact (proj2 (proj2 (proj2 H))).
Defined.

(** X16: a variable of the filtered map for which no merge strategy is
    configured, other than [PATH] when the directories are prepended, is
    registered as a replacement: the collection holds a replace mutator
    with the variable's value from the files, a new terminal sees that
    value whatever it inherits, and the returned map and [process.env]
    hold it too. *)
Theorem updateEnvironmentVariableCollection_default_replace
    (path_resolve : list string → string) (path_dirname : string → string)
    (path_join : list string → string) (fs_existsSync : string → bool)
    (fs_readFileSync : string → completion string)
    (dotenv_parse : string → completion EnvMap)
    (dotenvExpand_expand : Expander) (platform : string)
    (settings : Configuration) (workspaceState : gmap string (list string))
    (fuel : nat) (folder : vscode.WorkspaceFolder)
    (w w1 w' : World) (ce : ConfiguredEnvironment) (ensured : EnvMap)
    (k v : string) :
  getConfiguredEnvironment path_resolve path_dirname path_join
    fs_existsSync fs_readFileSync dotenv_parse dotenvExpand_expand
    settings workspaceState fuel folder w = (Returned ce, w1) →
  updateEnvironmentVariableCollection path_resolve path_dirname path_join
    fs_existsSync fs_readFileSync dotenv_parse dotenvExpand_expand
    platform settings workspaceState fuel (Some folder) w
  = (Returned ensured, w') →
  filtered ce !! k = Some v →
  default DEFAULT_MERGE_STRATEGIES (cfg_mergeStrategies settings) !! k
  = None →
  k ≠ "PATH"
  ∨ default true (cfg_prependCwdComponentsToPath settings) = false →
  environmentVariableCollection w' !! k
  = Some {| vscode.mtype := vscode.MReplace;
            vscode.mvalue := v;
            vscode.moptions := options |}
  ∧ (∀ inherited,
       vscode.apply (environmentVariableCollection w' !! k) inherited
       = Some v)
  ∧ ensured !! k = Some v
  ∧ process_env w' !! k = Some v.
Proof.
  intros Hrun Hupdate Hk Hstrategy Hother.
  assert (filtered ce ≠ ∅) as Hne.
  { intros Hempty. by rewrite Hempty, lookup_empty in Hk. }
  destruct (updateEnvironmentVariableCollection_inv _ _ _ _ _ _ _ _ _ _
              _ _ _ _ _ _ _ Hrun Hne Hupdate)
    as (path & Hpath & Hkeys & _).
  assert (k ≠ "PATH" ∨ path = None) as Hk'.
  { destruct Hother as [?|Hflag]; [by left|right].
    by rewrite Hflag in Hpath. }
  destruct (Hkeys k Hk') as (-> & -> & ->).
  by rewrite Hk, Hstrategy.
Qed.

Lemma updateEnvironmentVariableCollection_default_replace_witness :
  let configured :=
    getConfiguredEnvironment (Posix.resolve "/") Posix.dirname Posix.join
      (Sample.existsSync Sample.files) (Sample.readFileSync Sample.files)
      Sample.parse Sample.expand_copy Sample.no_settings ∅
      5 (Sample.folder "/proj") Sample.fresh_world in
  let run :=
    updateEnvironmentVariableCollection (Posix.resolve "/") Posix.dirname
      Posix.join (Sample.existsSync Sample.files)
      (Sample.readFileSync Sample.files) Sample.parse Sample.expand_copy
      "linux" Sample.no_settings ∅ 5 (Some (Sample.folder "/proj"))
      Sample.fresh_world in
  (∃ ce, configured = (Returned ce, configured.2)
         ∧ filtered ce !! "A" = Some "2")
  ∧ (∃ ensured, run = (Returned ensured, run.2))
  ∧ DEFAULT_MERGE_STRATEGIES !! "A" = None
  ∧ process_env run.2 !! "A" = Some "2".
Proof.
  intros configured run.
  assert (∃ ce, configured.1 = Returned ce ∧ filtered ce !! "A" = Some "2")
    as (ce & Hce & HA) by (eexists; vm_compute; split; reflexivity).
  assert (configured = (Returned ce, configured.2)) as Hrun
    by (rewrite <-Hce; apply surjective_pairing).
  assert (∃ ensured, run.1 = Returned ensured) as [ensured Hensured]
    by (eexists; vm_compute; reflexivity).
  assert (run = (Returned ensured, run.2)) as Hupdate
    by (rewrite <-Hensured; apply surjective_pairing).
  assert (DEFAULT_MERGE_STRATEGIES !! "A" = None) as Hstrategy
    by (vm_compute; reflexivity).
  assert ("A" ≠ "PATH") as HnePATH by discriminate.
  pose proof (updateEnvironmentVariableCollection_default_replace _ _ _ _ _
                _ _ _ _ _ _ _ _ _ _ _ _ "A" "2" Hrun Hupdate HA Hstrategy
                (or_introl HnePATH)) as H.
  split; [exists ce; split; [exact Hrun|exact HA]|].
  split; [exists ensured; exact Hupdate|].
  split; [exact Hstrategy|].
  exact (proj2 (proj2 (proj2 H))).
Defined.

(** ** The task and debug providers *)

(** X17: [resolveTask] answers undefined, and changes nothing, for a task
    without a shell or process execution. Otherwise it runs
    [updateEnvironmentVariableCollection] for the primary folder and passes
    on its exception; when that returns, the task it builds keeps the
    definition, name, source and problem matchers, has the workspace scope
    when the task had none, and its environment gives a variable the value
    of the returned map, else that of the task's own options, else that
    [process.env] had before the call. *)
Theorem resolveTask_env
    (path_resolve : list string → string) (path_dirname : string → string)
    (path_join : list string → string) (fs_existsSync : string → bool)
    (fs_readFileSync : string → completion string)
    (dotenv_parse : string → completion EnvMap)
    (dotenvExpand_expand : Expander) (platform : string)
    (settings : Configuration) (workspaceState : gmap string (list string))
    (primaryWorkspaceFolder : option vscode.WorkspaceFolder)
    (D V : Type) (fuel : nat) (task : tasks.Task D V) (w : World) :
  let resolved :=
    resolveTask path_resolve path_dirname path_join fs_existsSync
      fs_readFileSync dotenv_parse dotenvExpand_expand platform settings
      workspaceState primaryWorkspaceFolder fuel task w in
  match tasks.execution task with
  | None | Some tasks.CustomExecution => resolved = (Returned None, w)
  | Some execution =>
      match
        updateEnvironmentVariableCollection path_resolve path_dirname
          path_join fs_existsSync fs_readFileSync dotenv_parse
          dotenvExpand_expand platform settings workspaceState fuel
          primaryWorkspaceFolder w
      with
      | (Returned ensured, w') =>
          ∃ task' execution' env,
            resolved = (Returned (Some task'), w')
            ∧ tasks.definition task' = tasks.definition task
            ∧ tasks.scope task'
              = Some (default tasks.Workspace (tasks.scope task))
            ∧ tasks.name task' = tasks.name task
            ∧ tasks.source task' = tasks.source task
            ∧ tasks.problemMatchers task' = tasks.problemMatchers task
            ∧ tasks.execution task' = Some execution'
            ∧ tasks.execution_env execution' = Some env
            ∧ ∀ k,
                env !! k
                = match ensured !! k with
                  | Some v => Some v
                  | None =>
                      match
                        default ∅ (tasks.execution_env execution) !! k
                      with
                      | Some v => Some v
                      | None => process_env w !! k
                      end
                  end
      | (Thrown err, w') => resolved = (Thrown err, w')
      | (OutOfFuel, w') => resolved = (OutOfFuel, w')
      end
  end.
Proof.
  intros resolved. subst resolved. unfold resolveTask.
  destruct (tasks.execution task) as [[commandLine command options
                                      |process args options|]|]; try done;
    (destruct (updateEnvironmentVariableCollection _ _ _ _ _ _ _ _ _ _ _ _ _)
       as [[ensured|err|] w']; try done;
     eexists _, _, _; repeat (split; [reflexivity|]);
     intros k; unfold task_env, JS.spread2; simpl;
     rewrite !lookup_union;
     destruct (ensured !! k);
     destruct (default ∅ (tasks.options_env options) !! k);
     by destruct (process_env w !! k)).
Qed.

(** X18: without a folder [resolveDebugConfiguration] hands the
    configuration back as it is. With a folder it passes on the exception
    of [getConfiguredEnvironment]; when that returns, the configuration it
    answers keeps every other field, and its environment gives a variable
    the value the configuration already had for it and, only when it had
    none, the value of the filtered map. *)
Theorem resolveDebugConfiguration_env
    (path_resolve : list string → string) (path_dirname : string → string)
    (path_join : list string → string) (fs_existsSync : string → bool)
    (fs_readFileSync : string → completion string)
    (dotenv_parse : string → completion EnvMap)
    (dotenvExpand_expand : Expander)
    (settings : Configuration) (workspaceState : gmap string (list string))
    (V : Type) (fuel : nat) (folder : option vscode.WorkspaceFolder)
    (debugConfiguration : option (debug.DebugConfiguration V)) (w : World) :
  let resolved :=
    resolveDebugConfiguration path_resolve path_dirname path_join
      fs_existsSync fs_readFileSync dotenv_parse dotenvExpand_expand
      settings workspaceState fuel folder debugConfiguration w in
  match folder with
  | None => resolved = (Returned debugConfiguration, w)
  | Some folder =>
      match
        getConfiguredEnvironment path_resolve path_dirname path_join
          fs_existsSync fs_readFileSync dotenv_parse dotenvExpand_expand
          settings workspaceState fuel folder w
      with
      | (Returned ce, w') =>
          ∃ configuration env,
            resolved = (Returned (Some configuration), w')
            ∧ debug.env configuration = Some env
            ∧ debug.other configuration
              = default ∅ (debug.other <$> debugConfiguration)
            ∧ ∀ k,
                env !! k
                = match
                    default ∅ (debugConfiguration ≫= debug.env) !! k
                  with
                  | Some v => Some v
                  | None => filtered ce !! k
                  end
      | (Thrown err, w') => resolved = (Thrown err, w')
      | (OutOfFuel, w') => resolved = (OutOfFuel, w')
      end
  end.
Proof.
  intros resolved. subst resolved. unfold resolveDebugConfiguration.
  destruct folder as [folder|]; [|done].
  unfold mbind, M_bind, bind.
  destruct (getConfiguredEnvironment _ _ _ _ _ _ _ _ _ _ _ _)
    as [[ce|err|] w']; try done.
  eexists _, _. repeat (split; [reflexivity|]).
  intros k. unfold JS.spread2. rewrite lookup_union.
  destruct (default ∅ (debugConfiguration ≫= debug.env) !! k);
    by destruct (filtered ce !! k).
Qed.

(** ** Commands *)

Lemma prefix_spec (needle s : string) :
  String.prefix needle s = true ↔ ∃ b, s = needle +:+ b.
Proof.
  revert s. induction needle as [|c needle IH]; intros s.
  - split; [|by destruct s]. intros _. by exists s.
  - destruct s as [|c' s]; simpl.
    + split; [done|]. by intros [b Hb].
    + destruct (Ascii.ascii_dec c c') as [<-|Hne].
      * rewrite IH. split; intros [b Hb]; exists b.
        -- change (String c s = String c (needle +:+ b)). by rewrite Hb.
        -- change (String c s = String c (needle +:+ b)) in Hb.
           by injection Hb.
      * split; [done|]. intros [b Hb].
        change (String c' s = String c (needle +:+ b)) in Hb.
        injection Hb as -> _. done.
Qed.

Lemma includes_unfold (needle s : string) :
  includes needle s
  = if String.prefix needle s then true
    else match s with
         | EmptyString => false
         | String _ s' => includes needle s'
         end.
Proof. by destruct s. Qed.

Lemma includes_spec (needle s : string) :
  includes needle s = true ↔ ∃ a b, s = a +:+ needle +:+ b.
Proof.
  induction s as [|c s IH]; rewrite includes_unfold.
  - destruct (String.prefix needle "") eqn:Hp.
    + split; [intros _|done]. apply prefix_spec in Hp as [b Hb].
      by exists "", b.
    + split; [done|]. intros (a & b & Hab). destruct a as [|c a].
      * assert (String.prefix needle "" = true) as Hp'
          by (apply prefix_spec; by exists b).
        congruence.
      * done.
  - destruct (String.prefix needle (String c s)) eqn:Hp.
    + split; [intros _|done]. apply prefix_spec in Hp as [b Hb].
      by exists "", b.
    + rewrite IH. split.
      * intros (a & b & ->). by exists (String c a), b.
      * intros (a & b & Hab). destruct a as [|c' a].
        -- assert (String.prefix needle (String c s) = true) as Hp'
             by (apply prefix_spec; by exists b).
           congruence.
        -- change (String c s = String c' (a +:+ needle +:+ b)) in Hab.
           injection Hab as _ ->. by exists a, b.
Qed.

(** X19: the name typed for the environment file is accepted exactly when
    it is not empty, is not made of white space only, and contains neither
    a slash nor a backslash; an empty or blank name is reported as empty
    also when it contains a separator. *)
Theorem validateInput_accepts (trim : string → string) (value : string) :
  (validateInput trim value = None
   ↔ value ≠ "" ∧ trim value ≠ ""
     ∧ (∀ a b, value ≠ a +:+ "/" +:+ b)
     ∧ (∀ a b, value ≠ a +:+ "\" +:+ b))
  ∧ (validateInput trim value = Some "File name cannot be empty"
     ↔ value = "" ∨ trim value = "").
Proof.
  unfold validateInput.
  destruct (decide (value = "")) as [Hv|Hv];
    [rewrite (bool_decide_eq_true_2 _ Hv); simpl;
     by (split; split; [|naive_solver| |]; try naive_solver)|].
  rewrite (bool_decide_eq_false_2 _ Hv). simpl.
  destruct (decide (trim value = "")) as [Ht|Ht];
    [rewrite (bool_decide_eq_true_2 _ Ht);
     by (split; split; [|naive_solver| |]; try naive_solver)|].
  rewrite (bool_decide_eq_false_2 _ Ht).
  destruct (includes "/" value) eqn:Hslash; simpl.
  { apply includes_spec in Hslash as (a & b & Hab).
    split; split; try done; try naive_solver. }
  destruct (includes "\" value) eqn:Hback.
  { apply includes_spec in Hback as (a & b & Hab).
    split; split; try done; try naive_solver. }
  split; split; try done; try naive_solver. intros _.
  split; [done|]. split; [done|]. split.
  - intros a b Hab.
    assert (includes "/" value = true) as Hin
      by (apply includes_spec; by exists a, b).
    congruence.
  - intros a b Hab.
    assert (includes "\" value = true) as Hin
      by (apply includes_spec; by exists a, b).
    congruence.
Qed.

(** X20: [pickWorkspaceFolder] answers the first workspace folder whenever
    there is one, however many are open, and asks nothing; the quick pick
    of its source is never shown. Without a folder it answers undefined
    after one information message. *)
Theorem pickWorkspaceFolder_first
    (wsFolders : list vscode.WorkspaceFolder)
    (showQuickPick : list (string * string) → option (string * string)) :
  pickWorkspaceFolder wsFolders showQuickPick
  = (head wsFolders,
     match wsFolders with
     | [] => [InformationMessage "Environ: no workspace folder open."]
     | _ :: _ => []
     end).
Proof. by destruct wsFolders. Qed.
